(** * fs-poll: the timer-driven file poller of libuv (deps/uv/src/fs-poll.c)

    A shallow embedding of [fs-poll.c] and a verification of its polling
    state machine.  The C code is translated function by function; the
    event loop, the timer and the stat request are collaborators that live
    in other files of libuv and are modelled by their contract. *)

From stdpp Require Import base numbers option list strings gmap.
From Stdlib Require Import ZArith Lia.

Local Open Scope Z_scope.

(** ** Machine integers *)

(** [unsigned int] and [uint64_t] values are kept as [Z] in their range;
    a subtraction of unsigned values wraps. *)
Definition UINT_MAX : Z := 2 ^ 32 - 1.
Definition UINT64_MOD : Z := 2 ^ 64.
Definition INT_MIN : Z := - 2 ^ 31.
Definition INT_MAX : Z := 2 ^ 31 - 1.

Definition is_uint (z : Z) : Prop := 0 <= z <= UINT_MAX.
Definition is_int (z : Z) : Prop := INT_MIN <= z <= INT_MAX.

(** Result of an [uint64_t] operation. *)
Definition u64 (z : Z) : Z := z mod UINT64_MOD.

(** Result of an [int] operation, two's complement. *)
Definition to_int (z : Z) : Z := (z + 2 ^ 31) mod 2 ^ 32 - 2 ^ 31.

(** [-x] on [int]. *)
Definition int_neg (x : Z) : Z := to_int (- x).

(** ** Metadata snapshots *)

(** [uv_statbuf_t] is [struct stat].  The sub-second parts of the
    modification and change times are the fields that the C code reaches
    as [st_mtim.tv_nsec], [st_mtimensec] or [st_mtimespec.tv_nsec],
    depending on the C library. *)
Record uv_statbuf_t : Type := mk_statbuf {
  st_dev : Z;
  st_ino : Z;
  st_mode : Z;
  st_nlink : Z;
  st_uid : Z;
  st_gid : Z;
  st_rdev : Z;
  st_size : Z;
  st_atime : Z;
  st_mtime : Z;
  st_ctime : Z;
  st_mtim_nsec : Z;
  st_ctim_nsec : Z
}.

(** [static uv_statbuf_t zero_statbuf;] a static object is zero-initialised. *)
Definition zero_statbuf : uv_statbuf_t :=
  mk_statbuf 0 0 0 0 0 0 0 0 0 0 0 0 0.

(** The preprocessor symbols that select the body of [statbuf_eq]. *)
Record build_config : Type := mk_build_config {
  def_WIN32 : bool;
  def_linux : bool;
  def_APPLE : bool
}.

Definition windows_build : build_config := mk_build_config true false false.
Definition linux_build : build_config := mk_build_config false true false.
Definition darwin_build : build_config := mk_build_config false false true.
Definition other_unix_build : build_config := mk_build_config false false false.

(** [statbuf_eq]: 1 is [true], 0 is [false]; each [if ... return 0;] of the
    C body is one conditional here, in the same order. *)
Definition statbuf_eq (cfg : build_config) (a b : uv_statbuf_t) : bool :=
  if def_WIN32 cfg then
    (st_mtime a =? st_mtime b)
    && (st_size a =? st_size b)
    && (st_mode a =? st_mode b)
  else
    if def_linux cfg && negb (st_ctim_nsec a =? st_ctim_nsec b) then false else
    if def_linux cfg && negb (st_mtim_nsec a =? st_mtim_nsec b) then false else
    if def_APPLE cfg && negb (st_ctim_nsec a =? st_ctim_nsec b) then false else
    if def_APPLE cfg && negb (st_mtim_nsec a =? st_mtim_nsec b) then false else
    (st_ctime a =? st_ctime b)
    && (st_mtime a =? st_mtime b)
    && (st_size a =? st_size b)
    && (st_mode a =? st_mode b)
    && (st_uid a =? st_uid b)
    && (st_gid a =? st_gid b)
    && (st_ino a =? st_ino b)
    && (st_dev a =? st_dev b).

(** The build reads the nanosecond fields. *)
Definition reads_nsec (cfg : build_config) : bool :=
  negb (def_WIN32 cfg) && (def_linux cfg || def_APPLE cfg).

(** The equality of snapshots as the specification words it: identical
    size, mode, uid, gid, inode and device, and identical modification and
    change times at the finest resolution the platform exposes, that is,
    with their nanosecond parts when the [stat] of the platform has them
    ([nsec_available]) and in whole seconds otherwise.  Whether the
    platform has them is a fact about the platform; it is not read off
    the preprocessor symbols the code tests. *)
Definition same_tracked_fields (nsec_available : bool) (a b : uv_statbuf_t)
    : Prop :=
  st_size a = st_size b /\ st_mode a = st_mode b
  /\ st_uid a = st_uid b /\ st_gid a = st_gid b
  /\ st_ino a = st_ino b /\ st_dev a = st_dev b
  /\ st_mtime a = st_mtime b /\ st_ctime a = st_ctime b
  /\ (nsec_available = true ->
      st_mtim_nsec a = st_mtim_nsec b /\ st_ctim_nsec a = st_ctim_nsec b).

(** What the [_WIN32] body compares. *)
Definition same_win32_fields (a b : uv_statbuf_t) : Prop :=
  st_mtime a = st_mtime b /\ st_size a = st_size b /\ st_mode a = st_mode b.

(** ** Handles, requests and the polling context *)

(** The part of [uv_timer_t] the poller depends on: whether the timer is
    armed, the delay it was armed with, whether [uv_close] was called on
    it (its close callback is then still to be delivered), and whether it
    was stopped while armed. *)
Record uv_timer_t : Type := mk_timer {
  timer_active : bool;
  timer_closing : bool;
  timer_timeout : Z;
  timer_cancelled : bool
}.

(** The part of [uv_fs_t] the poller depends on.  [fs_pending] holds from
    [uv_fs_stat] until the completion is delivered; [result], [errorno]
    and [ptr] are filled in by the completion. *)
Record uv_fs_t : Type := mk_fs_req {
  fs_pending : bool;
  result : Z;
  errorno : Z;
  ptr : option uv_statbuf_t
}.

(** [struct poll_ctx].  Pointers are addresses ([nat]) into the maps of the
    world below, [None] is [NULL].  The [loop] field is left out: there is
    one loop, the world.  [ctx_poll_cb] is the field [poll_cb], the user's
    callback, named by an identifier. *)
Record poll_ctx : Type := mk_poll_ctx {
  parent_handle : option nat;
  busy_polling : Z;
  interval : Z;
  start_time : Z;
  ctx_poll_cb : nat;
  timer_handle : uv_timer_t;
  fs_req : uv_fs_t;
  statbuf : uv_statbuf_t;
  path : string
}.

(** The part of [uv_fs_poll_t] the poller depends on: the active flag of
    the handle and its [poll_ctx] field. *)
Record uv_fs_poll_t : Type := mk_handle {
  active : bool;
  h_poll_ctx : option nat
}.

(** One invocation of the user callback
    [cb(handle, status, prev, curr)], with the values the two snapshot
    pointers point to at the call.  [cb_ctx] records which context made
    the call. *)
Record cb_call : Type := mk_cb_call {
  cb_ctx : nat;
  cb_fn : nat;
  cb_handle : nat;
  cb_status : Z;
  cb_prev : uv_statbuf_t;
  cb_curr : uv_statbuf_t
}.

(** The loop and the memory: the loop's clock and last error, the
    [uv_fs_poll_t] handles, the allocated contexts, the allocator's next
    address, the log of [free] calls and the log of user callbacks, both
    oldest first. *)
Record world : Type := mk_world {
  time : Z;
  last_err : Z;
  handles : gmap nat uv_fs_poll_t;
  heap : gmap nat poll_ctx;
  next_ctx : nat;
  freed : list nat;
  calls : list cb_call
}.

Definition init : world := mk_world 0 0 ∅ ∅ 0%nat [] [].

(** Field updates. *)
Definition set_parent_handle (v : option nat) (c : poll_ctx) : poll_ctx :=
  mk_poll_ctx v (busy_polling c) (interval c) (start_time c) (ctx_poll_cb c)
    (timer_handle c) (fs_req c) (statbuf c) (path c).
Definition set_busy_polling (v : Z) (c : poll_ctx) : poll_ctx :=
  mk_poll_ctx (parent_handle c) v (interval c) (start_time c) (ctx_poll_cb c)
    (timer_handle c) (fs_req c) (statbuf c) (path c).
Definition set_interval (v : Z) (c : poll_ctx) : poll_ctx :=
  mk_poll_ctx (parent_handle c) (busy_polling c) v (start_time c) (ctx_poll_cb c)
    (timer_handle c) (fs_req c) (statbuf c) (path c).
Definition set_start_time (v : Z) (c : poll_ctx) : poll_ctx :=
  mk_poll_ctx (parent_handle c) (busy_polling c) (interval c) v (ctx_poll_cb c)
    (timer_handle c) (fs_req c) (statbuf c) (path c).
Definition set_ctx_poll_cb (v : nat) (c : poll_ctx) : poll_ctx :=
  mk_poll_ctx (parent_handle c) (busy_polling c) (interval c) (start_time c) v
    (timer_handle c) (fs_req c) (statbuf c) (path c).
Definition set_timer_handle (v : uv_timer_t) (c : poll_ctx) : poll_ctx :=
  mk_poll_ctx (parent_handle c) (busy_polling c) (interval c) (start_time c)
    (ctx_poll_cb c) v (fs_req c) (statbuf c) (path c).
Definition set_fs_req (v : uv_fs_t) (c : poll_ctx) : poll_ctx :=
  mk_poll_ctx (parent_handle c) (busy_polling c) (interval c) (start_time c)
    (ctx_poll_cb c) (timer_handle c) v (statbuf c) (path c).
Definition set_statbuf (v : uv_statbuf_t) (c : poll_ctx) : poll_ctx :=
  mk_poll_ctx (parent_handle c) (busy_polling c) (interval c) (start_time c)
    (ctx_poll_cb c) (timer_handle c) (fs_req c) v (path c).
Definition set_path (v : string) (c : poll_ctx) : poll_ctx :=
  mk_poll_ctx (parent_handle c) (busy_polling c) (interval c) (start_time c)
    (ctx_poll_cb c) (timer_handle c) (fs_req c) (statbuf c) v.

Definition set_time (v : Z) (w : world) : world :=
  mk_world v (last_err w) (handles w) (heap w) (next_ctx w) (freed w) (calls w).
Definition set_last_err (v : Z) (w : world) : world :=
  mk_world (time w) v (handles w) (heap w) (next_ctx w) (freed w) (calls w).
Definition set_handles (v : gmap nat uv_fs_poll_t) (w : world) : world :=
  mk_world (time w) (last_err w) v (heap w) (next_ctx w) (freed w) (calls w).
Definition set_heap (v : gmap nat poll_ctx) (w : world) : world :=
  mk_world (time w) (last_err w) (handles w) v (next_ctx w) (freed w) (calls w).
Definition set_next_ctx (v : nat) (w : world) : world :=
  mk_world (time w) (last_err w) (handles w) (heap w) v (freed w) (calls w).
Definition set_freed (v : list nat) (w : world) : world :=
  mk_world (time w) (last_err w) (handles w) (heap w) (next_ctx w) v (calls w).
Definition set_calls (v : list cb_call) (w : world) : world :=
  mk_world (time w) (last_err w) (handles w) (heap w) (next_ctx w) (freed w) v.

(** ** Faults *)

(** How a call can fail to return: [abort()], a failed [assert], a
    dereference of memory that is not allocated, a division by zero.
    [NotEnabled] is not a fault of the poller: the environment offered an
    event that the loop cannot deliver in this state. *)
Inductive fault : Type :=
  | Aborted
  | AssertionFailed
  | InvalidPointer
  | DivisionByZero
  | NotEnabled.

Inductive res (A : Type) : Type :=
  | Ok (a : A)
  | Fault (f : fault).
Arguments Ok {A} a.
Arguments Fault {A} f.

Definition res_bind {A B : Type} (m : res A) (k : A -> res B) : res B :=
  match m with
  | Ok a => k a
  | Fault f => Fault f
  end.

Notation "'do' x <- m ; k" := (res_bind m (fun x => k))
  (at level 10, x name, m at level 100, k at level 200).

Definition guard (b : bool) (f : fault) : res unit :=
  if b then Ok tt else Fault f.

(** Memory access. *)
Definition load (p : nat) (w : world) : res poll_ctx :=
  match heap w !! p with
  | Some c => Ok c
  | None => Fault InvalidPointer
  end.

Definition store (p : nat) (c : poll_ctx) (w : world) : world :=
  set_heap (<[p := c]> (heap w)) w.

Definition load_handle (h : nat) (w : world) : res uv_fs_poll_t :=
  match handles w !! h with
  | Some hd => Ok hd
  | None => Fault InvalidPointer
  end.

Definition store_handle (h : nat) (hd : uv_fs_poll_t) (w : world) : world :=
  set_handles (<[h := hd]> (handles w)) w.

(** ** The collaborators of the poller *)

(** The loop, the timer and the stat request of libuv live in other files
    than [fs-poll.c].  They are modelled by what the poller relies on:
    the timer can be armed with a delay, stopped and closed; the stat
    request is issued and completes later; each call reports success with
    0, which the poller checks.  Whether the callback of a timer that was
    stopped while armed is still delivered is left open: the loop below
    may deliver it, once, or never. *)

(** Modelled from the spec: [uv_now(loop)], the clock of the loop. *)
Definition uv_now (w : world) : Z := time w.

(** Modelled from the spec: [uv__set_artificial_error(loop, code)], a
    helper of uv-common.c, which is not among the sources and which the
    specification does not describe.  It is taken as libuv has it: it
    records the code as the loop's last error and returns -1, the value
    that [uv_fs_poll_start] hands on when [calloc] fails. *)
Definition uv__set_artificial_error (code : Z) (w : world) : Z * world :=
  (-1, set_last_err code w).

(** Modelled from the spec: [uv__is_active(handle)], the handle's
    [isActive()]. *)
Definition uv__is_active (hd : uv_fs_poll_t) : bool := active hd.

(** Modelled from the spec: [uv_timer_init(loop, timer)]. *)
Definition uv_timer_init : Z * uv_timer_t :=
  (0, mk_timer false false 0 false).

(** Modelled from the spec: [uv_timer_start(timer, cb, timeout, 0)], the
    timer's [timerStart(delayMs, callback)] for a one-shot timer. *)
Definition uv_timer_start (t : uv_timer_t) (timeout : Z) : Z * uv_timer_t :=
  (0, mk_timer true (timer_closing t) timeout false).

(** Modelled from the spec: [uv_timer_stop(timer)], the timer's
    [timerStop()]; the timer is no longer armed. *)
Definition uv_timer_stop (t : uv_timer_t) : Z * uv_timer_t :=
  (0, mk_timer false (timer_closing t) (timer_timeout t)
        (timer_active t || timer_cancelled t)).

(** Modelled from the spec: the loop takes a one-shot timer out of its
    queue before it runs the callback. *)
Definition timer_fired (t : uv_timer_t) : uv_timer_t :=
  mk_timer false (timer_closing t) (timer_timeout t) false.

(** Modelled from the spec: [uv_close(timer, cb)], the timer's
    [timerClose(onClosed)]; the timer is stopped and its close callback
    will be delivered, once. *)
Definition uv_close (t : uv_timer_t) : uv_timer_t :=
  mk_timer false true (timer_timeout t) false.

(** Modelled from the spec: [uv_fs_stat(loop, req, path, cb)], the stat
    primitive's [statAsync(path, callback)]. *)
Definition uv_fs_stat (r : uv_fs_t) : Z * uv_fs_t :=
  (0, mk_fs_req true 0 0 None).

(** Modelled from the spec: [uv_fs_req_cleanup(req)], which releases the
    result buffer of the request. *)
Definition uv_fs_req_cleanup (r : uv_fs_t) : uv_fs_t :=
  mk_fs_req (fs_pending r) (result r) (errorno r) None.

(** The memory [calloc] returns: all fields zero. *)
Definition zero_poll_ctx : poll_ctx :=
  mk_poll_ctx None 0 0 0 0%nat (mk_timer false false 0 false)
    (mk_fs_req false 0 0 None) zero_statbuf "".

(** [calloc]: a fresh address, or [NULL] when the allocation fails.
    Addresses are not handed out again, so that an address names one
    allocation. *)
Definition calloc (alloc_ok : bool) (w : world) : option nat * world :=
  if alloc_ok
  then (Some (next_ctx w), set_next_ctx (S (next_ctx w)) w)
  else (None, w).

(** The call [ctx->poll_cb(ctx->parent_handle, status, prev, curr)] made
    by context [p].  The call is recorded with its arguments; the user's
    function is not part of the poller and is taken not to call back into
    it before it returns: a callback that stops, closes or restarts a
    handle from within is not covered. *)
Definition invoke_poll_cb (p : nat) (c : poll_ctx) (h : nat) (status : Z)
    (prev curr : uv_statbuf_t) (w : world) : world :=
  set_calls (calls w ++ [mk_cb_call p (ctx_poll_cb c) h status prev curr]) w.

Section FsPoll.

(** The build the code is compiled for, and the value of the enumerator
    [UV_ENOMEM], which [uv.h] declares. *)
Variable cfg : build_config.
Variable UV_ENOMEM : Z.

(** What the memory of a handle holds in its [poll_ctx] field before the
    handle is initialised: any pointer, or [NULL]. *)
Variable uninit_poll_ctx : nat -> option nat.

(** ** The functions of fs-poll.c *)

(** Each function takes the world and returns the world it leaves, or a
    fault.  A handle or a context is passed by its address. *)

(** [uv_fs_poll_init]: [uv__handle_init] leaves the handle inactive.  The
    field [poll_ctx] is not written: it keeps what the memory holds. *)
Definition uv_fs_poll_init (h : nat) (w : world) : Z * world :=
  let poll_ctx_field :=
    match handles w !! h with
    | Some hd => h_poll_ctx hd
    | None => uninit_poll_ctx h
    end in
  (0, store_handle h (mk_handle false poll_ctx_field) w).

(** [uv_fs_poll_start].  [alloc_ok] says whether [calloc] succeeds.  The
    handle flags set on the timer ([UV__HANDLE_INTERNAL], the dropped
    reference) only keep the internal timer from holding the loop open;
    they are left out. *)
Definition uv_fs_poll_start (h cb : nat) (path_arg : string) (interval_arg : Z)
    (alloc_ok : bool) (w : world) : res (Z * world) :=
  do hd <- load_handle h w;
  if uv__is_active hd then Ok (0, w) else
  match calloc alloc_ok w with
  | (None, w) => Ok (uv__set_artificial_error UV_ENOMEM w)
  | (Some p, w) =>
      let ctx := zero_poll_ctx in
      let ctx := set_ctx_poll_cb cb ctx in
      let ctx := set_interval (if interval_arg =? 0 then 1 else interval_arg) ctx in
      let ctx := set_start_time (uv_now w) ctx in
      let ctx := set_parent_handle (Some h) ctx in
      let ctx := set_path path_arg ctx in
      let '(rc, t) := uv_timer_init in
      if negb (rc =? 0) then Fault Aborted else
      let ctx := set_timer_handle t ctx in
      let '(rc, r) := uv_fs_stat (fs_req ctx) in
      if negb (rc =? 0) then Fault Aborted else
      let ctx := set_fs_req r ctx in
      let w := store p ctx w in
      Ok (0, store_handle h (mk_handle true (Some p)) w)
  end.

(** [uv_fs_poll_stop], with its two assertions. *)
Definition uv_fs_poll_stop (h : nat) (w : world) : res (Z * world) :=
  do hd <- load_handle h w;
  if negb (uv__is_active hd) then Ok (0, w) else
  match h_poll_ctx hd with
  | None => Fault AssertionFailed
  | Some p =>
      do ctx <- load p w;
      match parent_handle ctx with
      | None => Fault AssertionFailed
      | Some _ =>
          let ctx := set_parent_handle None ctx in
          let ctx := set_timer_handle (uv_timer_stop (timer_handle ctx)).2 ctx in
          let w := store p ctx w in
          Ok (0, store_handle h (mk_handle false None) w)
      end
  end.

(** [uv__fs_poll_close]. *)
Definition uv__fs_poll_close (h : nat) (w : world) : res world :=
  do r <- uv_fs_poll_stop h w;
  Ok r.2.

(** [timer_close_cb]: [free] of the context that holds the timer.  A
    [free] of memory that is not allocated is a fault. *)
Definition timer_close_cb (p : nat) (w : world) : res world :=
  do _ <- load p w;
  Ok (set_freed (freed w ++ [p]) (set_heap (delete p (heap w)) w)).

(** [timer_cb], for the timer of context [p]; its [status] argument is
    not used. *)
Definition timer_cb (p : nat) (w : world) : res world :=
  do ctx <- load p w;
  match parent_handle ctx with
  | None =>
      Ok (store p (set_timer_handle (uv_close (timer_handle ctx)) ctx) w)
  | Some h =>
      do hd <- load_handle h w;
      do _ <- guard (bool_decide (h_poll_ctx hd = Some p)) AssertionFailed;
      let ctx := set_start_time (uv_now w) ctx in
      let '(rc, r) := uv_fs_stat (fs_req ctx) in
      if negb (rc =? 0) then Fault Aborted else
      Ok (store p (set_fs_req r ctx) w)
  end.

(** The two branches of [poll_cb] before the label [out]: what they do to
    the context and to the world. *)
Definition poll_cb_failed (p h : nat) (ctx : poll_ctx) (w : world)
    : poll_ctx * world :=
  let req := fs_req ctx in
  if negb (busy_polling ctx =? int_neg (errorno req)) then
    let w := (uv__set_artificial_error (errorno req) w).2 in
    let w := invoke_poll_cb p ctx h (-1) (statbuf ctx) zero_statbuf w in
    (set_busy_polling (int_neg (errorno req)) ctx, w)
  else (ctx, w).

Definition poll_cb_succeeded (p h : nat) (ctx : poll_ctx) (sb : uv_statbuf_t)
    (w : world) : poll_ctx * world :=
  let w :=
    if negb (busy_polling ctx =? 0)
    then if (busy_polling ctx <? 0) || negb (statbuf_eq cfg (statbuf ctx) sb)
         then invoke_poll_cb p ctx h 0 (statbuf ctx) sb w
         else w
    else w in
  let ctx := set_statbuf sb ctx in
  let ctx := set_busy_polling 1 ctx in
  (ctx, w).

(** The delay computed after [out]: [interval] is an [uint64_t] local. *)
Definition next_delay (ctx : poll_ctx) (now : Z) : Z :=
  let interval := interval ctx in
  u64 (interval - u64 (now - start_time ctx) mod interval).

(** [poll_cb], for the stat request of context [p].  The division by
    [interval] is a fault when [interval] is 0. *)
Definition poll_cb (p : nat) (w : world) : res world :=
  do ctx <- load p w;
  let req := fs_req ctx in
  match parent_handle ctx with
  | None =>
      let ctx := set_timer_handle (uv_close (timer_handle ctx)) ctx in
      let ctx := set_fs_req (uv_fs_req_cleanup req) ctx in
      Ok (store p ctx w)
  | Some h =>
      do cw <-
        (if negb (result req =? 0) then Ok (poll_cb_failed p h ctx w)
         else match ptr req with
              | None => Fault InvalidPointer
              | Some sb => Ok (poll_cb_succeeded p h ctx sb w)
              end);
      let '(ctx, w) := cw in
      let ctx := set_fs_req (uv_fs_req_cleanup (fs_req ctx)) ctx in
      do _ <- guard (negb (interval ctx =? 0)) DivisionByZero;
      let '(rc, t) := uv_timer_start (timer_handle ctx) (next_delay ctx (uv_now w)) in
      if negb (rc =? 0) then Fault Aborted else
      Ok (store p (set_timer_handle t ctx) w)
  end.

(** ** The loop *)

(** What the user and the loop do.  [EvStart] carries the arguments of
    [uv_fs_poll_start] and whether [calloc] succeeds; [EvTick] is the loop
    updating its clock, which does not run backwards; [EvTimer], [EvStat] and [EvClosed] are the loop
    delivering the timer callback, the completion of the stat request
    (with [req->result], [req->errorno] and the buffer [req->ptr] points
    to) and the close callback of the timer of context [p].  The loop
    delivers only what is outstanding; it is free in the order and in the
    moment: an armed timer may fire at any reading of the clock. *)
Inductive event : Type :=
  | EvInit (h : nat)
  | EvStart (h cb : nat) (path_arg : string) (interval_arg : Z) (alloc_ok : bool)
  | EvStop (h : nat)
  | EvClose (h : nat)
  | EvTick (now : Z)
  | EvTimer (p : nat)
  | EvStat (p : nat) (result_arg errorno_arg : Z) (sb : uv_statbuf_t)
  | EvClosed (p : nat).

Definition in_uint (z : Z) : bool := (0 <=? z) && (z <=? UINT_MAX).
Definition in_int (z : Z) : bool := (INT_MIN <=? z) && (z <=? INT_MAX).

(** Modelled from the spec: what the stat primitive hands to the
    completion callback.  A failure carries an error code, which is an
    [int] other than 0 ([UV_OK]). *)
Definition stat_result_ok (result_arg errorno_arg : Z) : bool :=
  (result_arg =? 0) || (in_int errorno_arg && negb (errorno_arg =? 0)).

(** Modelled from the spec: the request as the stat primitive leaves it
    when it completes; the buffer is there when the stat succeeded. *)
Definition complete_fs_req (result_arg errorno_arg : Z) (sb : uv_statbuf_t)
    : uv_fs_t :=
  mk_fs_req false result_arg errorno_arg
    (if result_arg =? 0 then Some sb else None).

Definition step (w : world) (e : event) : res world :=
  match e with
  | EvInit h =>
      do _ <- guard (bool_decide (handles w !! h = None)) NotEnabled;
      Ok (uv_fs_poll_init h w).2
  | EvStart h cb path_arg interval_arg alloc_ok =>
      do _ <- guard (in_uint interval_arg) NotEnabled;
      do r <- uv_fs_poll_start h cb path_arg interval_arg alloc_ok w;
      Ok r.2
  | EvStop h =>
      do r <- uv_fs_poll_stop h w;
      Ok r.2
  | EvClose h => uv__fs_poll_close h w
  | EvTick now =>
      do _ <- guard ((time w <=? now) && (now <? UINT64_MOD)) NotEnabled;
      Ok (set_time now w)
  | EvTimer p =>
      do ctx <- load p w;
      do _ <- guard (timer_active (timer_handle ctx)
                     || timer_cancelled (timer_handle ctx)) NotEnabled;
      timer_cb p (store p (set_timer_handle (timer_fired (timer_handle ctx)) ctx) w)
  | EvStat p result_arg errorno_arg sb =>
      do ctx <- load p w;
      do _ <- guard (fs_pending (fs_req ctx)) NotEnabled;
      do _ <- guard (stat_result_ok result_arg errorno_arg) NotEnabled;
      poll_cb p (store p (set_fs_req (complete_fs_req result_arg errorno_arg sb) ctx) w)
  | EvClosed p =>
      do ctx <- load p w;
      do _ <- guard (timer_closing (timer_handle ctx)) NotEnabled;
      timer_close_cb p w
  end.

Fixpoint run (evs : list event) (w : world) : res world :=
  match evs with
  | [] => Ok w
  | e :: evs => do w' <- step w e; run evs w'
  end.

(** ** Status of a context *)

(** [busy_polling] read as the status of the poller: 0 before the first
    completed stat, a negated error code after a failed one, 1 after a
    successful one. *)
Inductive status : Type :=
  | Unprimed
  | Primed
  | Failing (code : Z).

Definition status_of (c : poll_ctx) : status :=
  if busy_polling c =? 0 then Unprimed
  else if busy_polling c <? 0 then Failing (int_neg (busy_polling c))
  else Primed.

(** The moves of the status: it stays, or it becomes [Primed] or
    [Failing]. *)
Inductive status_move : status -> status -> Prop :=
  | move_stay s : status_move s s
  | move_primed s : status_move s Primed
  | move_failing s code : status_move s (Failing code).

(** ** Reachable worlds and their invariant *)

Definition reachable (w : world) : Prop :=
  exists evs, run evs init = Ok w.

(** The callbacks made by context [p], and how often [p] was freed. *)
Definition calls_of (p : nat) (w : world) : list cb_call :=
  filter (fun k => cb_ctx k = p) (calls w).

Definition free_count (p : nat) (w : world) : nat :=
  length (filter (fun q => q = p) (freed w)).

(** What holds of a context by itself at loop time [now]: the interval is
    a positive [unsigned int]; the cycle started in the past; while the
    stat request is in flight the timer is neither armed nor closing nor
    stopped; a closing timer is not armed and belongs to a detached
    context; a timer that was stopped while armed belongs to a detached
    context; before the first completed stat the snapshot is still the
    zeroed memory of [calloc]. *)
Record ctx_ok (now : Z) (c : poll_ctx) : Prop := mk_ctx_ok {
  ok_interval : 1 <= interval c <= UINT_MAX;
  ok_start_time : 0 <= start_time c <= now;
  ok_pending : fs_pending (fs_req c) = true ->
    timer_active (timer_handle c) = false /\
    timer_closing (timer_handle c) = false /\
    timer_cancelled (timer_handle c) = false;
  ok_closing : timer_closing (timer_handle c) = true ->
    timer_active (timer_handle c) = false /\ parent_handle c = None;
  ok_cancelled : timer_cancelled (timer_handle c) = true ->
    parent_handle c = None;
  ok_unprimed : busy_polling c = 0 -> statbuf c = zero_statbuf
}.

(** What holds of every world the loop can reach: the clock is an
    [uint64_t]; every context is well formed and lies below the
    allocator's next address; an attached context and its handle point to
    each other; freed addresses are not allocated and none is freed
    twice. *)
Record inv (w : world) : Prop := mk_inv {
  inv_time : 0 <= time w < UINT64_MOD;
  inv_ctx : forall p c, heap w !! p = Some c -> ctx_ok (time w) c;
  inv_addr : forall p c, heap w !! p = Some c -> (p < next_ctx w)%nat;
  inv_parent : forall p c h, heap w !! p = Some c ->
    parent_handle c = Some h ->
    handles w !! h = Some (mk_handle true (Some p));
  inv_handle : forall h hd, handles w !! h = Some hd -> active hd = true ->
    exists p c, h_poll_ctx hd = Some p /\ heap w !! p = Some c /\
                parent_handle c = Some h;
  inv_freed : forall p, p ∈ freed w ->
    (p < next_ctx w)%nat /\ heap w !! p = None;
  inv_nodup : NoDup (freed w)
}.

(** Context [p] was detached (or is gone): its owner is [NULL]. *)
Definition detached (p : nat) (w : world) : Prop :=
  (p < next_ctx w)%nat /\
  forall c, heap w !! p = Some c -> parent_handle c = None.

(** [updates w w' p c' ks]: [w'] is [w] with context [p] overwritten by
    [c'] and the callbacks [ks] made; the clock, the handles, the
    allocator and the log of frees are the same. *)
Definition updates (w w' : world) (p : nat) (c' : poll_ctx)
    (ks : list cb_call) : Prop :=
  time w' = time w /\ handles w' = handles w /\
  heap w' = <[p := c']> (heap w) /\ next_ctx w' = next_ctx w /\
  freed w' = freed w /\ calls w' = calls w ++ ks.

(** The callbacks of the two branches of [poll_cb]. *)
Definition failed_calls (p h : nat) (c : poll_ctx) (e : Z) : list cb_call :=
  if busy_polling c =? int_neg e then []
  else [mk_cb_call p (ctx_poll_cb c) h (-1) (statbuf c) zero_statbuf].

Definition succeeded_calls (p h : nat) (c : poll_ctx) (sb : uv_statbuf_t)
    : list cb_call :=
  if busy_polling c =? 0 then []
  else if (busy_polling c <? 0) || negb (statbuf_eq cfg (statbuf c) sb)
       then [mk_cb_call p (ctx_poll_cb c) h 0 (statbuf c) sb]
       else [].

(** The fields of a context that no step changes, and the two changes
    that no step undoes: a nonzero [busy_polling] stays nonzero, and a
    detached context stays detached. *)
Definition ctx_step (c c' : poll_ctx) : Prop :=
  interval c' = interval c /\ path c' = path c /\
  ctx_poll_cb c' = ctx_poll_cb c /\
  (busy_polling c <> 0 -> busy_polling c' <> 0) /\
  (parent_handle c = None -> parent_handle c' = None).

(** ** Sample inputs *)

(** A snapshot, the same with another owner, and the same with another
    change time (on Windows [st_ctime] is the time of creation). *)
Definition snapshot_root : uv_statbuf_t :=
  mk_statbuf 1 2 420 1 0 0 0 10 5 6 7 0 0.
Definition snapshot_user : uv_statbuf_t :=
  mk_statbuf 1 2 420 1 1000 0 0 10 5 6 7 0 0.
Definition snapshot_recreated : uv_statbuf_t :=
  mk_statbuf 1 2 420 1 0 0 0 10 5 6 9 0 0.

(** The same snapshot again, written to later within the same second. *)
Definition snapshot_rewritten : uv_statbuf_t :=
  mk_statbuf 1 2 420 1 0 0 0 10 5 6 7 500 500.

(** A stand-in for the value of [UV_ENOMEM]; nothing below depends on
    which number it is. *)
Definition sample_enomem : Z := 26.

(** The handles of the samples lie in zeroed memory. *)
Definition sample_uninit : nat -> option nat := fun _ => None.

(** A handle is initialised; then it is started with an interval of 100
    and the clock advances by 30 while the first stat is in flight; then
    that stat succeeds, the timer fires at 100 and the second stat is in
    flight at 130. *)
Definition idle_events : list event := [EvInit 7%nat].

Definition polling_events : list event :=
  [EvInit 7%nat; EvStart 7%nat 1%nat "f" 100 true; EvTick 30].

Definition primed_events : list event :=
  polling_events ++
  [EvStat 0%nat 0 0 snapshot_root; EvTick 100; EvTimer 0%nat; EvTick 130].

(** The context of handle 7 after [polling_events] and after
    [primed_events]. *)
Definition ctx_polling : poll_ctx :=
  mk_poll_ctx (Some 7%nat) 0 100 0 1%nat (mk_timer false false 0 false)
    (mk_fs_req true 0 0 None) zero_statbuf "f".

Definition ctx_primed : poll_ctx :=
  mk_poll_ctx (Some 7%nat) 1 100 100 1%nat (mk_timer false false 70 false)
    (mk_fs_req true 0 0 None) snapshot_root "f".

(** The same context after its second stat has failed with error code 34. *)
Definition ctx_failing : poll_ctx :=
  mk_poll_ctx (Some 7%nat) (-34) 100 100 1%nat (mk_timer true false 70 false)
    (mk_fs_req false (-1) 34 None) snapshot_root "f".

(** The worlds these events lead to: after [idle_events], after
    [polling_events], after [primed_events], and after the failure of the
    second stat. *)
Definition world_idle : world :=
  mk_world 0 0 {[7%nat := mk_handle false None]} ∅ 0%nat [] [].

Definition world_polling : world :=
  mk_world 30 0 {[7%nat := mk_handle true (Some 0%nat)]}
    {[0%nat := ctx_polling]} 1%nat [] [].

Definition world_primed : world :=
  mk_world 130 0 {[7%nat := mk_handle true (Some 0%nat)]}
    {[0%nat := ctx_primed]} 1%nat [] [].

Definition world_failing : world :=
  mk_world 130 34 {[7%nat := mk_handle true (Some 0%nat)]}
    {[0%nat := ctx_failing]} 1%nat []
    [mk_cb_call 0%nat 1%nat 7%nat (-1) snapshot_root zero_statbuf].

(** The events that lead on from there: the second stat fails with error
    code 34; then the timer fires at 200 and the third stat is in flight
    at 215. *)
Definition failing_events : list event :=
  primed_events ++ [EvStat 0%nat (-1) 34 snapshot_root].

Definition retrying_events : list event :=
  failing_events ++ [EvTick 200; EvTimer 0%nat; EvTick 215].

(** The context of handle 7 and the world after [retrying_events]. *)
Definition ctx_retrying : poll_ctx :=
  mk_poll_ctx (Some 7%nat) (-34) 100 200 1%nat (mk_timer false false 70 false)
    (mk_fs_req true 0 0 None) snapshot_root "f".

Definition world_retrying : world :=
  mk_world 215 34 {[7%nat := mk_handle true (Some 0%nat)]}
    {[0%nat := ctx_retrying]} 1%nat []
    [mk_cb_call 0%nat 1%nat 7%nat (-1) snapshot_root zero_statbuf].

(** ** What the comparator reads, and what the loop owes a context *)

(** The fields [statbuf_eq] is compiled to read, in the order of the
    [return] expression, the nanosecond parts last. *)
Definition compared_fields (a : uv_statbuf_t) : list Z :=
  if def_WIN32 cfg then [st_mtime a; st_size a; st_mode a]
  else
    [st_ctime a; st_mtime a; st_size a; st_mode a;
     st_uid a; st_gid a; st_ino a; st_dev a]
    ++ (if def_linux cfg || def_APPLE cfg
        then [st_ctim_nsec a; st_mtim_nsec a] else []).

(** A snapshot with other values in the fields that no build compares:
    the link count, the device of a special file and the access time. *)
Definition with_untracked (nlink rdev atime : Z) (a : uv_statbuf_t)
    : uv_statbuf_t :=
  mk_statbuf (st_dev a) (st_ino a) (st_mode a) nlink (st_uid a) (st_gid a)
    rdev (st_size a) atime (st_mtime a) (st_ctime a)
    (st_mtim_nsec a) (st_ctim_nsec a).

(** The operations a context still waits for: the stat request in
    flight, the armed timer, the close callback of the timer, and the
    callback of a timer that was stopped while armed. *)
Definition outstanding (c : poll_ctx) : nat :=
  (Nat.b2n (fs_pending (fs_req c))
   + Nat.b2n (timer_active (timer_handle c))
   + Nat.b2n (timer_closing (timer_handle c))
   + Nat.b2n (timer_cancelled (timer_handle c)))%nat.

(** What holds of every reachable world besides [inv]: every allocated
    context waits for exactly one operation, and every callback in the
    log was made by a context that was allocated before. *)
Record inv_loop (w : world) : Prop := mk_inv_loop {
  loop_inv : inv w;
  loop_one : forall p c, heap w !! p = Some c -> outstanding c = 1%nat;
  loop_calls : forall k, k ∈ calls w -> (cb_ctx k < next_ctx w)%nat
}.

(** The event names a handle that was not initialised, or a context that
    is not allocated. *)
Definition names_missing (w : world) (e : event) : Prop :=
  match e with
  | EvInit _ | EvTick _ => False
  | EvStart h _ _ _ _ | EvStop h | EvClose h => handles w !! h = None
  | EvTimer p | EvStat p _ _ _ | EvClosed p => heap w !! p = None
  end.

(** The callbacks of context [p] are made with the callback [cb] on the
    handle [h], with status 0, or with status -1 and the zeroed sentinel
    as the current snapshot. *)
Definition call_ok (cb h : nat) (k : cb_call) : Prop :=
  cb_fn k = cb /\ cb_handle k = h /\
  (cb_status k = 0 \/ (cb_status k = -1 /\ cb_curr k = zero_statbuf)).

(** Context [q] was started with the callback [cb] on the handle [h], and
    its callbacks so far were made with them. *)
Definition started_with (cb h q : nat) (w : world) : Prop :=
  (q < next_ctx w)%nat
  /\ (forall d, heap w !! q = Some d ->
        ctx_poll_cb d = cb
        /\ (parent_handle d = Some h \/ parent_handle d = None))
  /\ (forall k, k ∈ calls_of q w -> call_ok cb h k).

(** * Properties *)

(** ** Integers *)

Lemma int_neg_nonzero (e : Z) : is_int e -> e <> 0 -> int_neg e <> 0.
Proof.
  unfold is_int, INT_MIN, INT_MAX, int_neg, to_int. intros [Hlo Hhi] Hne.
  destruct (Z.eq_dec e (- 2 ^ 31)) as [->|Hmin]; [vm_compute; discriminate|].
  rewrite Z.mod_small by lia. lia.
Qed.

Lemma in_int_spec (z : Z) : in_int z = true <-> is_int z.
Proof. unfold in_int, is_int. rewrite andb_true_iff, !Z.leb_le. tauto. Qed.

Lemma in_uint_spec (z : Z) : in_uint z = true <-> is_uint z.
Proof. unfold in_uint, is_uint. rewrite andb_true_iff, !Z.leb_le. tauto. Qed.

Lemma stat_result_ok_failed (r e : Z) :
  stat_result_ok r e = true -> r <> 0 -> is_int e /\ e <> 0.
Proof.
  unfold stat_result_ok. intros H Hr.
  apply orb_true_iff in H as [H|H]; [apply Z.eqb_eq in H; contradiction|].
  apply andb_true_iff in H as [H1 H2]. apply in_int_spec in H1.
  apply negb_true_iff, Z.eqb_neq in H2. auto.
Qed.

(** The delay is the mathematical one when the clock has not run
    backwards, and it is between 1 and the interval. *)
Lemma next_delay_spec (c : poll_ctx) (now : Z) :
  1 <= interval c <= UINT_MAX -> 0 <= start_time c <= now -> now < UINT64_MOD ->
  next_delay c now = interval c - (now - start_time c) mod interval c
  /\ 1 <= next_delay c now <= interval c.
Proof.
  unfold next_delay, u64, UINT_MAX, UINT64_MOD. intros Hi Hs Hn.
  assert (Hm : 0 <= (now - start_time c) mod interval c < interval c)
    by (apply Z.mod_pos_bound; lia).
  rewrite (Z.mod_small (now - start_time c)) by lia.
  rewrite Z.mod_small by lia. lia.
Qed.

(** ** The comparator *)

(** C3, as amended.  Compiled with [_WIN32], [statbuf_eq] answers true
    exactly when the modification time, the size and the mode agree.
    Compiled without it, [statbuf_eq] answers true exactly when the
    snapshots are equal as the specification words it, at the finest
    resolution the platform exposes, provided the build reads the
    nanosecond parts exactly when the platform has them: a Linux or OS X
    build, or a build for a platform with whole seconds only.  A build for
    another Unix whose platform has the nanosecond parts is left out. *)
Theorem statbuf_eq_compares_tracked_fields (nsec_available : bool)
    (a b : uv_statbuf_t) :
  (def_WIN32 cfg = false -> reads_nsec cfg = nsec_available ->
     (statbuf_eq cfg a b = true <-> same_tracked_fields nsec_available a b))
  /\ (def_WIN32 cfg = true ->
      (statbuf_eq cfg a b = true <-> same_win32_fields a b)).
Proof.
  unfold statbuf_eq, same_win32_fields, same_tracked_fields, reads_nsec.
  split; intros -> ; simpl.
  - intros <-.
    destruct (Z.eqb_spec (st_ctim_nsec a) (st_ctim_nsec b)) as [Hc|Hc];
    destruct (Z.eqb_spec (st_mtim_nsec a) (st_mtim_nsec b)) as [Hm|Hm];
    destruct (def_linux cfg), (def_APPLE cfg); simpl;
    rewrite ?andb_true_iff, ?Z.eqb_eq;
    split; intros H; try discriminate H;
    intuition (try discriminate; try congruence).
  - rewrite !andb_true_iff, !Z.eqb_eq. tauto.
Qed.

(** Two snapshots that differ in the nanoseconds of the modification
    time only are different on Linux and OS X and equal on another Unix,
    where [statbuf_eq] reads whole seconds only. *)
Example statbuf_eq_nanoseconds :
  let a := mk_statbuf 1 2 420 1 0 0 0 10 5 6 7 100 0 in
  let b := mk_statbuf 1 2 420 1 0 0 0 10 5 6 7 200 0 in
  statbuf_eq linux_build a b = false
  /\ statbuf_eq darwin_build a b = false
  /\ statbuf_eq other_unix_build a b = true.
Proof. repeat split. Qed.

(** ** Reading the result of a call *)

Lemma res_bind_Ok {A B : Type} (m : res A) (k : A -> res B) (b : B) :
  res_bind m k = Ok b -> exists a, m = Ok a /\ k a = Ok b.
Proof. destruct m as [a|f]; simpl; [eauto | discriminate]. Qed.

Lemma guard_Ok (b : bool) (f : fault) (u : unit) : guard b f = Ok u -> b = true.
Proof. destruct b; simpl; [reflexivity | discriminate]. Qed.

Lemma load_Ok (p : nat) (w : world) (c : poll_ctx) :
  load p w = Ok c <-> heap w !! p = Some c.
Proof. unfold load. destruct (heap w !! p); split; congruence. Qed.

Lemma load_handle_Ok (h : nat) (w : world) (hd : uv_fs_poll_t) :
  load_handle h w = Ok hd <-> handles w !! h = Some hd.
Proof. unfold load_handle. destruct (handles w !! h); split; congruence. Qed.

Lemma load_store (p : nat) (c : poll_ctx) (w : world) :
  load p (store p c w) = Ok c.
Proof. unfold load, store. simpl. by rewrite lookup_insert_eq. Qed.

(** Take apart the hypotheses that say a sequence of calls returned. *)
Ltac ok_all :=
  repeat match goal with
  | H : res_bind _ _ = Ok _ |- _ =>
      let a := fresh "a" in let Ha := fresh "Ha" in
      apply res_bind_Ok in H as (a & Ha & H)
  | H : guard _ _ = Ok _ |- _ => apply guard_Ok in H
  | H : load _ _ = Ok _ |- _ => apply load_Ok in H
  | H : load_handle _ _ = Ok _ |- _ => apply load_handle_Ok in H
  | H : Ok _ = Ok _ |- _ => injection H as H
  | H : Fault _ = Ok _ |- _ => discriminate H
  | H : bool_decide _ = true |- _ => apply bool_decide_eq_true in H
  end.

(** ** What each entry point does to the world *)

Lemma uv_fs_poll_start_Ok (h cb : nat) (pa : string) (iv : Z) (a : bool)
    (w : world) (r : Z * world) :
  uv_fs_poll_start h cb pa iv a w = Ok r ->
  exists hd, handles w !! h = Some hd /\
  ((active hd = true /\ r = (0, w))
   \/ (active hd = false /\ a = false /\ r = (-1, set_last_err UV_ENOMEM w))
   \/ (active hd = false /\ a = true /\
       r = (0, store_handle h (mk_handle true (Some (next_ctx w)))
                 (store (next_ctx w)
                    (mk_poll_ctx (Some h) 0 (if iv =? 0 then 1 else iv) (time w) cb
                       (mk_timer false false 0 false) (mk_fs_req true 0 0 None)
                       zero_statbuf pa)
                    (set_next_ctx (S (next_ctx w)) w))))).
Proof.
  unfold uv_fs_poll_start. intros H. ok_all. exists a0. split; [done|].
  unfold uv__is_active in H. destruct (active a0).
  - left. ok_all. by subst.
  - right. destruct a; simpl in H; ok_all; subst; [right | left]; done.
Qed.

Lemma uv_fs_poll_stop_Ok (h : nat) (w : world) (r : Z * world) :
  uv_fs_poll_stop h w = Ok r ->
  exists hd, handles w !! h = Some hd /\
  ((active hd = false /\ r = (0, w))
   \/ (exists p c h', active hd = true /\ h_poll_ctx hd = Some p /\
        heap w !! p = Some c /\ parent_handle c = Some h' /\
        r = (0, store_handle h (mk_handle false None)
                  (store p (set_timer_handle (uv_timer_stop (timer_handle c)).2
                              (set_parent_handle None c)) w)))).
Proof.
  unfold uv_fs_poll_stop. intros H. ok_all. exists a. split; [done|].
  unfold uv__is_active in H. destruct (active a); simpl in H.
  - right. destruct (h_poll_ctx a) as [p|]; [|discriminate]. ok_all.
    destruct (parent_handle a0) as [h'|] eqn:Hp; [|discriminate]. ok_all.
    subst. by exists p, a0, h'.
  - left. ok_all. by subst.
Qed.

Lemma step_timer_Ok (p : nat) (w w' : world) :
  step w (EvTimer p) = Ok w' ->
  exists c, heap w !! p = Some c /\
  timer_active (timer_handle c) || timer_cancelled (timer_handle c) = true /\
  match parent_handle c with
  | None =>
      updates w w' p
        (set_timer_handle
           (mk_timer false true (timer_timeout (timer_handle c)) false) c) []
  | Some h =>
      (exists hd, handles w !! h = Some hd /\ h_poll_ctx hd = Some p) /\
      updates w w' p
        (set_fs_req (mk_fs_req true 0 0 None)
           (set_start_time (time w)
              (set_timer_handle
                 (mk_timer false (timer_closing (timer_handle c))
                    (timer_timeout (timer_handle c)) false) c))) []
  end.
Proof.
  unfold step. intros H. ok_all. exists a. split; [done|]. split; [done|].
  unfold timer_cb in H. rewrite load_store in H. simpl in H.
  destruct (parent_handle a) as [h|] eqn:Hp.
  - ok_all. simpl in *. split; [eauto|].
    subst w'. unfold updates, store; simpl.
      rewrite insert_insert_eq, app_nil_r. destruct a; simpl in *. by subst.
  - ok_all. subst w'. unfold updates, store; simpl.
    rewrite insert_insert_eq, app_nil_r. destruct a; simpl in *. by subst.
Qed.

Lemma step_stat_Ok (p : nat) (r e : Z) (sb : uv_statbuf_t) (w w' : world) :
  step w (EvStat p r e sb) = Ok w' ->
  exists c, heap w !! p = Some c /\ fs_pending (fs_req c) = true /\
  stat_result_ok r e = true /\
  match parent_handle c with
  | None =>
      updates w w' p
        (set_fs_req (mk_fs_req false r e None)
           (set_timer_handle
              (mk_timer false true (timer_timeout (timer_handle c)) false) c)) []
  | Some h =>
      interval c <> 0 /\
      if r =? 0 then
        updates w w' p
          (set_timer_handle
             (mk_timer true (timer_closing (timer_handle c))
                (next_delay c (time w)) false)
             (set_fs_req (mk_fs_req false r e None)
                (set_busy_polling 1 (set_statbuf sb c))))
          (succeeded_calls p h c sb)
      else
        updates w w' p
          (set_timer_handle
             (mk_timer true (timer_closing (timer_handle c))
                (next_delay c (time w)) false)
             (set_fs_req (mk_fs_req false r e None)
                (set_busy_polling (int_neg e) c)))
          (failed_calls p h c e)
  end.
Proof.
  unfold step. intros H. ok_all. exists a. do 3 (split; [done|]).
  unfold poll_cb in H. rewrite load_store in H. simpl in H.
  destruct (parent_handle a) as [h|] eqn:Hp.
  - destruct (r =? 0) eqn:Hr; simpl in H.
    + unfold poll_cb_succeeded in H. simpl in H. ok_all. simpl in *.
      match goal with Hz : negb (_ =? 0) = true |- _ =>
        apply negb_true_iff, Z.eqb_neq in Hz; split; [exact Hz|] end.
      subst w'. unfold succeeded_calls, updates, store, next_delay, uv_now.
      destruct (busy_polling a =? 0); simpl;
        [|destruct ((busy_polling a <? 0) || negb (statbuf_eq cfg (statbuf a) sb))];
        simpl; rewrite ?insert_insert_eq, ?app_nil_r; done.
    + unfold poll_cb_failed in H. simpl in H.
      unfold failed_calls, updates, store, next_delay, uv_now.
      destruct (busy_polling a =? int_neg e) eqn:Hb; simpl in H; ok_all;
        simpl in *;
        match goal with Hz : negb (_ =? 0) = true |- _ =>
          apply negb_true_iff, Z.eqb_neq in Hz; split; [exact Hz|] end;
        subst w'; simpl; rewrite ?insert_insert_eq, ?app_nil_r; [|done].
      apply Z.eqb_eq in Hb. rewrite <- Hb. destruct a; done.
  - ok_all. subst w'. unfold updates, store; simpl.
    rewrite insert_insert_eq, app_nil_r. done.
Qed.

(** ** The invariant holds in every reachable world *)

Lemma inv_init : inv init.
Proof.
  split; simpl; try done.
  - intros p Hp. by apply elem_of_nil in Hp.
  - constructor.
Qed.

Lemma ctx_ok_later (now now' : Z) (c : poll_ctx) :
  now <= now' -> ctx_ok now c -> ctx_ok now' c.
Proof. intros Hle [H1 H2 H3 H4 H5 H6]. split; try done. lia. Qed.

(** Overwriting a context by a well-formed one with the same owner. *)
Lemma inv_updates (w w' : world) (p : nat) (c c' : poll_ctx) (ks : list cb_call) :
  inv w -> heap w !! p = Some c -> updates w w' p c' ks ->
  ctx_ok (time w) c' -> parent_handle c' = parent_handle c -> inv w'.
Proof.
  intros [It Ic Ia Ip Ih If In] Hc (Ht & Hh & Hheap & Hn & Hf & _) Hok Hpar.
  split; rewrite ?Ht, ?Hh, ?Hheap, ?Hn, ?Hf; try done.
  - intros q d Hq. destruct (decide (q = p)) as [->|Hne].
    + rewrite lookup_insert_eq in Hq. by injection Hq as <-.
    + rewrite lookup_insert_ne in Hq by done. eauto.
  - intros q d Hq. destruct (decide (q = p)) as [->|Hne].
    + eauto.
    + rewrite lookup_insert_ne in Hq by done. eauto.
  - intros q d h Hq Hd. destruct (decide (q = p)) as [->|Hne].
    + rewrite lookup_insert_eq in Hq. injection Hq as <-.
      rewrite Hpar in Hd. eauto.
    + rewrite lookup_insert_ne in Hq by done. eauto.
  - intros h hd Hhd Hact. destruct (Ih h hd Hhd Hact) as (q & d & Hq & Hd & Hpd).
    destruct (decide (q = p)) as [->|Hne].
    + exists p, c'. rewrite lookup_insert_eq. split; [done|]. split; [done|].
      rewrite Hpar. congruence.
    + exists q, d. by rewrite lookup_insert_ne.
  - intros q Hq. destruct (If q Hq) as [Hlt Hnone]. split; [done|].
    rewrite lookup_insert_ne; [done|]. intros ->. congruence.
Qed.

Lemma step_init_inv (h : nat) (w w' : world) :
  inv w -> step w (EvInit h) = Ok w' -> inv w'.
Proof.
  intros [It Ic Ia Ip Ih If In] H. unfold step in H. ok_all. subst w'.
  match goal with Hn : handles w !! h = None |- _ => rename Hn into Hnone end.
  unfold uv_fs_poll_init, store_handle. split; simpl; try done.
  - intros q d h' Hq Hd. rewrite lookup_insert_ne; [eauto|].
    intros ->. specialize (Ip q d h' Hq Hd). congruence.
  - intros h' hd Hhd Hact. destruct (decide (h' = h)) as [->|Hne].
    + rewrite lookup_insert_eq in Hhd. injection Hhd as <-. discriminate.
    + rewrite lookup_insert_ne in Hhd by done. eauto.
Qed.

Lemma step_tick_inv (now : Z) (w w' : world) :
  inv w -> step w (EvTick now) = Ok w' -> inv w'.
Proof.
  intros [It Ic Ia Ip Ih If In] H. unfold step in H. ok_all. subst w'.
  match goal with Hg : _ && _ = true |- _ =>
    apply andb_true_iff in Hg as [Hle Hlt];
    apply Z.leb_le in Hle; apply Z.ltb_lt in Hlt end.
  split; simpl; try done; [lia|].
  intros q d Hq. eapply ctx_ok_later; eauto.
Qed.

Lemma step_start_inv (h cb : nat) (pa : string) (iv : Z) (a : bool)
    (w w' : world) :
  inv w -> step w (EvStart h cb pa iv a) = Ok w' -> inv w'.
Proof.
  intros Hinv H. unfold step in H. ok_all.
  match goal with Hg : in_uint _ = true |- _ => apply in_uint_spec in Hg as Hiv end.
  match goal with Hs : uv_fs_poll_start _ _ _ _ _ _ = Ok _ |- _ =>
    apply uv_fs_poll_start_Ok in Hs
      as (hd & Hhd & [[Hact ->]|[(Hact & -> & ->)|(Hact & -> & ->)]]) end;
    simpl in H; subst w'; [done| |].
  - destruct Hinv. by split.
  - destruct Hinv as [It Ic Ia Ip Ih If In].
    unfold store_handle, store. split; simpl; try done.
    + intros q d Hq. destruct (decide (q = next_ctx w)) as [->|Hne].
      * rewrite lookup_insert_eq in Hq. injection Hq as <-.
        split; simpl; try done; [|lia].
        unfold is_uint in Hiv. unfold UINT_MAX in *.
        destruct (Z.eqb_spec iv 0); lia.
      * rewrite lookup_insert_ne in Hq by done. eauto.
    + intros q d Hq. destruct (decide (q = next_ctx w)) as [->|Hne]; [lia|].
      rewrite lookup_insert_ne in Hq by done. specialize (Ia q d Hq). lia.
    + intros q d h' Hq Hd. destruct (decide (q = next_ctx w)) as [->|Hne].
      * rewrite lookup_insert_eq in Hq. injection Hq as <-. simpl in Hd.
        injection Hd as <-. by rewrite lookup_insert_eq.
      * rewrite lookup_insert_ne in Hq by done.
        specialize (Ip q d h' Hq Hd). rewrite lookup_insert_ne; [done|].
        intros ->. rewrite Ip in Hhd. injection Hhd as <-. discriminate.
    + intros h' hd' Hhd' Hact'. destruct (decide (h' = h)) as [->|Hne].
      * rewrite lookup_insert_eq in Hhd'. injection Hhd' as <-.
        eexists _, _. split; [reflexivity|]. by rewrite lookup_insert_eq.
      * rewrite lookup_insert_ne in Hhd' by done.
        destruct (Ih h' hd' Hhd' Hact') as (q & d & Hq & Hd & Hpd).
        exists q, d. split; [done|]. split; [|done].
        rewrite lookup_insert_ne; [done|]. intros <-.
        specialize (Ia _ _ Hd). lia.
    + intros q Hq. destruct (If q Hq) as [Hlt Hnone]. split; [lia|].
      rewrite lookup_insert_ne; [done|]. lia.
Qed.

Lemma stop_inv (h : nat) (w : world) (r : Z * world) :
  inv w -> uv_fs_poll_stop h w = Ok r -> inv r.2.
Proof.
  intros Hinv H.
  apply uv_fs_poll_stop_Ok in H
    as (hd & Hhd & [[Hact ->]|(p & c & h' & Hact & Hp & Hc & Hpar & ->)]);
    [done|].
  destruct Hinv as [It Ic Ia Ip Ih If In].
  assert (Hown : parent_handle c = Some h).
  { destruct (Ih h hd Hhd Hact) as (q & d & Hq & Hd & Hpd). congruence. }
  unfold store_handle, store. split; simpl; try done.
  - intros q d Hq. destruct (decide (q = p)) as [->|Hne].
    + rewrite lookup_insert_eq in Hq. injection Hq as <-.
      destruct (Ic p c Hc) as [H1 H2 H3 H4 H5 H6]. split; simpl; try done.
      intros Hpend. destruct (H3 Hpend) as (-> & -> & ->). done.
    + rewrite lookup_insert_ne in Hq by done. eauto.
  - intros q d Hq. destruct (decide (q = p)) as [->|Hne]; [eauto|].
    rewrite lookup_insert_ne in Hq by done. eauto.
  - intros q d h2 Hq Hd. destruct (decide (q = p)) as [->|Hne].
    + rewrite lookup_insert_eq in Hq. injection Hq as <-. discriminate.
    + rewrite lookup_insert_ne in Hq by done.
      specialize (Ip q d h2 Hq Hd). rewrite lookup_insert_ne; [done|].
      intros ->. rewrite Ip in Hhd. injection Hhd as <-. simpl in Hp. congruence.
  - intros h2 hd2 Hhd2 Hact2. destruct (decide (h2 = h)) as [->|Hne].
    + rewrite lookup_insert_eq in Hhd2. injection Hhd2 as <-. discriminate.
    + rewrite lookup_insert_ne in Hhd2 by done.
      destruct (Ih h2 hd2 Hhd2 Hact2) as (q & d & Hq & Hd & Hpd).
      exists q, d. split; [done|]. split; [|done].
      rewrite lookup_insert_ne; [done|]. intros <-. congruence.
  - intros q Hq. destruct (If q Hq) as [Hlt Hnone]. split; [done|].
    rewrite lookup_insert_ne; [done|]. intros ->. congruence.
Qed.

Lemma step_timer_inv (p : nat) (w w' : world) :
  inv w -> step w (EvTimer p) = Ok w' -> inv w'.
Proof.
  intros Hinv H. apply step_timer_Ok in H as (c & Hc & Hact & H).
  destruct (inv_ctx w Hinv p c Hc) as [H1 H2 H3 H4 H5 H6].
  assert (Hpend : fs_pending (fs_req c) = false).
  { destruct (fs_pending (fs_req c)); [|done].
    destruct H3 as (Ha & _ & Hcn); [done|]. rewrite Ha, Hcn in Hact. done. }
  destruct (parent_handle c) as [h|] eqn:Hpar.
  - assert (Hcl : timer_closing (timer_handle c) = false).
    { destruct (timer_closing (timer_handle c)); [|done]. by destruct H4. }
    destruct H as [_ H]. pose proof (inv_time w Hinv).
    apply (inv_updates w w' p c _ _ Hinv Hc H); [|done].
    split; simpl; rewrite ?Hcl; try done; try lia.
  - apply (inv_updates w w' p c _ _ Hinv Hc H); [|done].
    split; simpl; rewrite ?Hpend; try done.
Qed.

Lemma step_stat_inv (p : nat) (r e : Z) (sb : uv_statbuf_t) (w w' : world) :
  inv w -> step w (EvStat p r e sb) = Ok w' -> inv w'.
Proof.
  intros Hinv H. apply step_stat_Ok in H as (c & Hc & Hpend & Hres & H).
  destruct (inv_ctx w Hinv p c Hc) as [H1 H2 H3 H4 H5 H6].
  destruct (H3 Hpend) as (Hact & Hcl & Hcn).
  destruct (parent_handle c) as [h|] eqn:Hpar.
  - destruct H as [_ H]. destruct (r =? 0) eqn:Hr.
    + apply (inv_updates w w' p c _ _ Hinv Hc H); [|done].
      split; simpl; rewrite ?Hcl; try done.
    + apply Z.eqb_neq in Hr.
      destruct (stat_result_ok_failed r e Hres Hr) as [He1 He2].
      apply (inv_updates w w' p c _ _ Hinv Hc H); [|done].
      split; simpl; rewrite ?Hcl; try done.
      intros Hz. by apply int_neg_nonzero in Hz.
  - apply (inv_updates w w' p c _ _ Hinv Hc H); [|done].
    split; simpl; try done.
Qed.

Lemma step_closed_inv (p : nat) (w w' : world) :
  inv w -> step w (EvClosed p) = Ok w' -> inv w'.
Proof.
  intros [It Ic Ia Ip Ih If In] H. unfold step, timer_close_cb in H. ok_all.
  subst w'.
  match goal with Hc : heap w !! p = Some ?c, Hg : timer_closing _ = true |- _ =>
    destruct (Ic p c Hc) as [H1 H2 H3 H4 H5 H6]; destruct (H4 Hg) as [_ Hdet];
    rename Hc into Hp end.
  split; simpl; try done.
  - intros q d Hq. apply lookup_delete_Some in Hq as [_ Hq]. eauto.
  - intros q d Hq. apply lookup_delete_Some in Hq as [_ Hq]. eauto.
  - intros q d h Hq Hd. apply lookup_delete_Some in Hq as [_ Hq]. eauto.
  - intros h hd Hhd Hact. destruct (Ih h hd Hhd Hact) as (q & d & Hq & Hd & Hpd).
    exists q, d. split; [done|]. split; [|done].
    rewrite lookup_delete_ne; [done|]. intros <-. congruence.
  - intros q Hq. apply elem_of_app in Hq as [Hq|Hq].
    + destruct (If q Hq) as [Hlt Hnone]. split; [done|].
      rewrite lookup_delete_None. by right.
    + apply list_elem_of_singleton in Hq as ->. split; [eauto|].
      by rewrite lookup_delete_eq.
  - apply NoDup_app. split; [done|]. split; [|apply NoDup_singleton].
    intros q Hq Hq'. apply list_elem_of_singleton in Hq' as ->.
    destruct (If p Hq). congruence.
Qed.

Lemma step_inv (e : event) (w w' : world) :
  inv w -> step w e = Ok w' -> inv w'.
Proof.
  intros Hinv H. destruct e.
  - eapply step_init_inv; eauto.
  - eapply step_start_inv; eauto.
  - unfold step in H. ok_all. subst w'. eapply stop_inv; eauto.
  - unfold step, uv__fs_poll_close in H. ok_all. subst w'. eapply stop_inv; eauto.
  - eapply step_tick_inv; eauto.
  - eapply step_timer_inv; eauto.
  - eapply step_stat_inv; eauto.
  - eapply step_closed_inv; eauto.
Qed.

Lemma run_inv (evs : list event) (w w' : world) :
  inv w -> run evs w = Ok w' -> inv w'.
Proof.
  revert w. induction evs as [|e evs IH]; simpl; intros w Hinv H.
  - by injection H as <-.
  - apply res_bind_Ok in H as (w1 & Hstep & H). eauto using step_inv.
Qed.

Lemma reachable_inv (w : world) : reachable w -> inv w.
Proof. intros [evs H]. eapply run_inv; [apply inv_init | exact H]. Qed.

Lemma run_app (evs1 evs2 : list event) (w w' : world) :
  run (evs1 ++ evs2) w = Ok w' <->
  exists w1, run evs1 w = Ok w1 /\ run evs2 w1 = Ok w'.
Proof.
  revert w. induction evs1 as [|e evs1 IH]; simpl; intros w.
  - split; [eauto | by intros (w1 & [= <-] & H)].
  - destruct (step w e) as [w1|f]; simpl; [apply IH|].
    split; [discriminate | by intros (w1 & H & _)].
Qed.

(** ** The loop can deliver what is outstanding *)

Lemma step_stat_enabled (w : world) (p : nat) (c : poll_ctx) (r e : Z)
    (sb : uv_statbuf_t) :
  inv w -> heap w !! p = Some c -> fs_pending (fs_req c) = true ->
  stat_result_ok r e = true -> exists w', step w (EvStat p r e sb) = Ok w'.
Proof.
  intros Hinv Hc Hpend Hres. unfold step.
  apply load_Ok in Hc as Hl. rewrite Hl. simpl. rewrite Hpend, Hres. simpl.
  unfold poll_cb. rewrite load_store. simpl.
  destruct (inv_ctx w Hinv p c Hc) as [H1 _ _ _ _ _].
  assert (Hnz : negb (interval c =? 0) = true).
  { apply negb_true_iff, Z.eqb_neq. lia. }
  destruct (parent_handle c) as [h|]; [|eauto].
  destruct (r =? 0); simpl.
  - rewrite Hnz. simpl. eauto.
  - unfold poll_cb_failed. simpl.
    destruct (busy_polling c =? int_neg e); simpl; rewrite Hnz; simpl; eauto.
Qed.

Lemma step_timer_enabled (w : world) (p : nat) (c : poll_ctx) :
  inv w -> heap w !! p = Some c -> timer_active (timer_handle c) = true ->
  exists w', step w (EvTimer p) = Ok w'.
Proof.
  intros Hinv Hc Hact. unfold step.
  apply load_Ok in Hc as Hl. rewrite Hl. simpl. rewrite Hact. simpl.
  unfold timer_cb. rewrite load_store. simpl.
  destruct (parent_handle c) as [h|] eqn:Hpar; [|eauto].
  pose proof (inv_parent w Hinv p c h Hc Hpar) as Hh.
  unfold load_handle. simpl. rewrite Hh. simpl.
  rewrite bool_decide_eq_true_2 by done. simpl. eauto.
Qed.

Lemma step_closed_enabled (w : world) (p : nat) (c : poll_ctx) :
  heap w !! p = Some c -> timer_closing (timer_handle c) = true ->
  exists w', step w (EvClosed p) = Ok w'.
Proof.
  intros Hc Hcl. unfold step, timer_close_cb.
  apply load_Ok in Hc as Hl. rewrite Hl. simpl. rewrite Hcl. simpl. eauto.
Qed.

Lemma stop_returns (w : world) (h : nat) (hd : uv_fs_poll_t) :
  inv w -> handles w !! h = Some hd ->
  exists w', uv_fs_poll_stop h w = Ok (0, w').
Proof.
  intros Hinv Hh. unfold uv_fs_poll_stop, uv__is_active.
  apply load_handle_Ok in Hh as Hl. rewrite Hl. simpl.
  destruct (active hd) eqn:Hact; simpl; [|eauto].
  destruct (inv_handle w Hinv h hd Hh Hact) as (p & c & Hp & Hc & Hpar).
  rewrite Hp. apply load_Ok in Hc as Hlc. rewrite Hlc. simpl. rewrite Hpar. eauto.
Qed.

Lemma status_unprimed (c : poll_ctx) :
  status_of c = Unprimed <-> busy_polling c = 0.
Proof.
  unfold status_of. destruct (Z.eqb_spec (busy_polling c) 0); [done|].
  destruct (busy_polling c <? 0); split; (discriminate || contradiction).
Qed.

Lemma status_primed (c : poll_ctx) :
  status_of c = Primed <-> 0 < busy_polling c.
Proof.
  unfold status_of. destruct (Z.eqb_spec (busy_polling c) 0) as [Hz|Hz].
  - split; [discriminate | lia].
  - destruct (Z.ltb_spec (busy_polling c) 0); split; (discriminate || lia || done).
Qed.

(** ** Start and stop *)

(** C7: [uv_fs_poll_start] on an active handle returns 0 and leaves the
    world as it is (no context is allocated, no stat request is issued),
    and [uv_fs_poll_stop] on an inactive handle returns 0 and leaves the
    world as it is. *)
Theorem start_and_stop_are_idempotent (w : world) (h : nat) (hd : uv_fs_poll_t) :
  handles w !! h = Some hd ->
  (active hd = true ->
   forall cb pa iv a, uv_fs_poll_start h cb pa iv a w = Ok (0, w))
  /\ (active hd = false -> uv_fs_poll_stop h w = Ok (0, w)).
Proof.
  intros Hh. apply load_handle_Ok in Hh. split; intros Hact.
  - intros cb pa iv a. unfold uv_fs_poll_start, uv__is_active.
    rewrite Hh. simpl. by rewrite Hact.
  - unfold uv_fs_poll_stop, uv__is_active. rewrite Hh. simpl. by rewrite Hact.
Qed.

(** C9: [uv_fs_poll_start] with interval 0 stores the interval 1, and
    with a positive interval stores that interval; no step of the loop
    changes the interval of a context; so in every reachable world every
    context has an interval of at least 1. *)
Theorem interval_is_at_least_one :
  (forall w h hd cb pa iv, handles w !! h = Some hd -> active hd = false ->
     exists w' c, uv_fs_poll_start h cb pa iv true w = Ok (0, w')
       /\ handles w' !! h = Some (mk_handle true (Some (next_ctx w)))
       /\ heap w' !! next_ctx w = Some c
       /\ (iv = 0 -> interval c = 1) /\ (iv <> 0 -> interval c = iv))
  /\ (forall w e w' p c c', inv w -> step w e = Ok w' ->
        heap w !! p = Some c -> heap w' !! p = Some c' ->
        interval c' = interval c)
  /\ (forall w p c, reachable w -> heap w !! p = Some c -> 1 <= interval c).
Proof.
  split; [|split].
  - intros w h hd cb pa iv Hh Hact. apply load_handle_Ok in Hh.
    unfold uv_fs_poll_start, uv__is_active. rewrite Hh. simpl. rewrite Hact.
    simpl. eexists _, _. split; [reflexivity|].
    unfold store_handle, store; simpl. rewrite !lookup_insert_eq.
    split; [done|]. split; [reflexivity|]. simpl.
    destruct (Z.eqb_spec iv 0); split; congruence.
  - intros w e w' p c c' Hinv H Hc Hc'. destruct e.
    + unfold step in H. ok_all. subst w'. simpl in Hc'. congruence.
    + unfold step in H. ok_all.
      match goal with Hs : uv_fs_poll_start _ _ _ _ _ _ = Ok _ |- _ =>
        apply uv_fs_poll_start_Ok in Hs
          as (hd & Hhd & [[Hact ->]|[(Hact & -> & ->)|(Hact & -> & ->)]]) end;
        simpl in H; subst w'; simpl in Hc'; try congruence.
      rewrite lookup_insert_ne in Hc'; [congruence|].
      pose proof (inv_addr w Hinv p c Hc). lia.
    + unfold step in H. ok_all. subst w'.
      match goal with Hs : uv_fs_poll_stop _ _ = Ok _ |- _ =>
        apply uv_fs_poll_stop_Ok in Hs
          as (hd & Hhd & [[Hact ->]|(q & d & h' & Hact & Hq & Hd & Hpar & ->)]) end;
        simpl in Hc'; [congruence|].
      destruct (decide (p = q)) as [->|Hne].
      * rewrite lookup_insert_eq in Hc'. injection Hc' as <-. simpl. congruence.
      * rewrite lookup_insert_ne in Hc' by done. congruence.
    + unfold step, uv__fs_poll_close in H. ok_all. subst w'.
      match goal with Hs : uv_fs_poll_stop _ _ = Ok _ |- _ =>
        apply uv_fs_poll_stop_Ok in Hs
          as (hd & Hhd & [[Hact ->]|(q & d & h' & Hact & Hq & Hd & Hpar & ->)]) end;
        simpl in Hc'; [congruence|].
      destruct (decide (p = q)) as [->|Hne].
      * rewrite lookup_insert_eq in Hc'. injection Hc' as <-. simpl. congruence.
      * rewrite lookup_insert_ne in Hc' by done. congruence.
    + unfold step in H. ok_all. subst w'. simpl in Hc'. congruence.
    + apply step_timer_Ok in H as (d & Hd & _ & H).
      destruct (decide (p = p0)) as [->|Hne].
      * destruct (parent_handle d); [destruct H as [_ H]|];
          destruct H as (_ & _ & Hheap & _); rewrite Hheap, lookup_insert_eq in Hc';
          injection Hc' as <-; simpl; congruence.
      * destruct (parent_handle d); [destruct H as [_ H]|];
          destruct H as (_ & _ & Hheap & _);
          rewrite Hheap, lookup_insert_ne in Hc' by done; congruence.
    + apply step_stat_Ok in H as (d & Hd & _ & _ & H).
      assert (Hheap : exists d', heap w' = <[p0 := d']> (heap w)
                                 /\ interval d' = interval d).
      { destruct (parent_handle d); [destruct H as [_ H]; destruct (result_arg =? 0)|];
          destruct H as (_ & _ & Hheap & _); eexists; (split; [exact Hheap|done]). }
      destruct Hheap as (d' & Hheap & Hiv). rewrite Hheap in Hc'.
      destruct (decide (p = p0)) as [->|Hne].
      * rewrite lookup_insert_eq in Hc'. congruence.
      * rewrite lookup_insert_ne in Hc' by done. congruence.
    + unfold step, timer_close_cb in H. ok_all. subst w'. simpl in Hc'.
      apply lookup_delete_Some in Hc' as [_ Hc']. congruence.
  - intros w p c Hr Hc. apply reachable_inv in Hr.
    by destruct (inv_ctx w Hr p c Hc) as [[? ?] _ _ _ _ _].
Qed.

(** ** The stat completion handler *)

(** C4: when the stat request of an attached context that is still
    Unprimed completes successfully, the user callback is not invoked; the
    snapshot is stored as the baseline and the status becomes Primed. *)
Theorem first_successful_stat_only_primes (w : world) (p h : nat)
    (c : poll_ctx) (e : Z) (sb : uv_statbuf_t) :
  reachable w -> heap w !! p = Some c -> parent_handle c = Some h ->
  fs_pending (fs_req c) = true -> status_of c = Unprimed ->
  exists w' c', step w (EvStat p 0 e sb) = Ok w'
    /\ calls w' = calls w
    /\ heap w' !! p = Some c'
    /\ statbuf c' = sb /\ status_of c' = Primed.
Proof.
  intros Hr Hc Hpar Hpend Hst. apply reachable_inv in Hr.
  apply status_unprimed in Hst.
  destruct (step_stat_enabled w p c 0 e sb Hr Hc Hpend eq_refl) as [w' Hstep].
  apply step_stat_Ok in Hstep as Hs. destruct Hs as (c0 & Hc0 & _ & _ & Hs).
  assert (c0 = c) as -> by congruence. rewrite Hpar in Hs. simpl in Hs.
  destruct Hs as (_ & _ & _ & Hheap & _ & _ & Hcalls).
  eexists w', _. split; [done|]. split.
  - rewrite Hcalls. unfold succeeded_calls. rewrite Hst. simpl. apply app_nil_r.
  - rewrite Hheap, lookup_insert_eq. done.
Qed.

(** C6: when the stat request of an attached context that is Primed
    completes successfully with a snapshot that [statbuf_eq] finds equal
    to the stored one, the user callback is not invoked. *)
Theorem equal_snapshot_is_not_reported (w : world) (p h : nat)
    (c : poll_ctx) (e : Z) (sb : uv_statbuf_t) :
  reachable w -> heap w !! p = Some c -> parent_handle c = Some h ->
  fs_pending (fs_req c) = true -> status_of c = Primed ->
  statbuf_eq cfg (statbuf c) sb = true ->
  exists w', step w (EvStat p 0 e sb) = Ok w' /\ calls w' = calls w.
Proof.
  intros Hr Hc Hpar Hpend Hst Heq. apply reachable_inv in Hr.
  apply status_primed in Hst.
  destruct (step_stat_enabled w p c 0 e sb Hr Hc Hpend eq_refl) as [w' Hstep].
  apply step_stat_Ok in Hstep as Hs. destruct Hs as (c0 & Hc0 & _ & _ & Hs).
  assert (c0 = c) as -> by congruence. rewrite Hpar in Hs. simpl in Hs.
  destruct Hs as (_ & _ & _ & _ & _ & _ & Hcalls).
  exists w'. split; [done|]. rewrite Hcalls. unfold succeeded_calls.
  destruct (Z.eqb_spec (busy_polling c) 0); [lia|].
  destruct (Z.ltb_spec (busy_polling c) 0); [lia|].
  rewrite Heq. simpl. apply app_nil_r.
Qed.

(** X2, a changed snapshot: when the stat request of an attached context
    that is Primed completes successfully with a snapshot that
    [statbuf_eq] finds different from the stored one, the user callback
    is invoked once, with status 0, the stored snapshot and the new one,
    and the new one is stored. *)
Theorem changed_snapshot_is_reported (w : world) (p h : nat)
    (c : poll_ctx) (e : Z) (sb : uv_statbuf_t) :
  reachable w -> heap w !! p = Some c -> parent_handle c = Some h ->
  fs_pending (fs_req c) = true -> status_of c = Primed ->
  statbuf_eq cfg (statbuf c) sb = false ->
  exists w' c', step w (EvStat p 0 e sb) = Ok w'
    /\ calls w' = calls w ++ [mk_cb_call p (ctx_poll_cb c) h 0 (statbuf c) sb]
    /\ heap w' !! p = Some c'
    /\ statbuf c' = sb /\ status_of c' = Primed.
Proof.
  intros Hr Hc Hpar Hpend Hst Hneq. apply reachable_inv in Hr.
  apply status_primed in Hst.
  destruct (step_stat_enabled w p c 0 e sb Hr Hc Hpend eq_refl) as [w' Hstep].
  apply step_stat_Ok in Hstep as Hs. destruct Hs as (c0 & Hc0 & _ & _ & Hs).
  assert (c0 = c) as -> by congruence. rewrite Hpar in Hs. simpl in Hs.
  destruct Hs as (_ & _ & _ & Hheap & _ & _ & Hcalls).
  eexists w', _. split; [done|]. split.
  - rewrite Hcalls. unfold succeeded_calls.
    destruct (Z.eqb_spec (busy_polling c) 0); [lia|].
    rewrite Hneq, orb_true_r. done.
  - rewrite Hheap, lookup_insert_eq. done.
Qed.

(** C10: [uv_fs_poll_start] creates the context attached, with its stat
    request in flight, Unprimed and with the zeroed snapshot of [calloc];
    and in every reachable world, when the stat request of an attached
    context that is still Unprimed fails with a nonzero error code, the
    stored snapshot is still all zero and the user callback is invoked
    once, with status -1 and with the all-zero snapshot both as the
    previous and as the current snapshot. *)
Theorem first_stat_failure_reports_zero_snapshots (w : world) :
  reachable w ->
  (forall h hd cb pa iv,
     handles w !! h = Some hd -> active hd = false -> is_uint iv ->
     exists w1 c, step w (EvStart h cb pa iv true) = Ok w1
       /\ heap w1 !! next_ctx w = Some c
       /\ parent_handle c = Some h /\ ctx_poll_cb c = cb
       /\ fs_pending (fs_req c) = true
       /\ status_of c = Unprimed /\ statbuf c = zero_statbuf)
  /\ (forall p h c r e sb,
       heap w !! p = Some c -> parent_handle c = Some h ->
       fs_pending (fs_req c) = true -> status_of c = Unprimed ->
       r <> 0 -> is_int e -> e <> 0 ->
       statbuf c = zero_statbuf
       /\ exists w', step w (EvStat p r e sb) = Ok w'
            /\ calls w' = calls w ++
                 [mk_cb_call p (ctx_poll_cb c) h (-1) zero_statbuf zero_statbuf]).
Proof.
  intros Hr. apply reachable_inv in Hr. split.
  - intros h hd cb pa iv Hh Hact Hiv. apply load_handle_Ok in Hh.
    apply in_uint_spec in Hiv. unfold step. rewrite Hiv. simpl.
    unfold uv_fs_poll_start, uv__is_active. rewrite Hh. simpl. rewrite Hact.
    simpl. eexists _, _. split; [reflexivity|].
    unfold store_handle, store; simpl. rewrite lookup_insert_eq. done.
  - intros p h c r e sb Hc Hpar Hpend Hst Hrn Hei Hen.
    apply status_unprimed in Hst.
    destruct (inv_ctx w Hr p c Hc) as [_ _ _ _ _ Hzero]. specialize (Hzero Hst).
    split; [done|].
    assert (Hres : stat_result_ok r e = true).
    { unfold stat_result_ok. apply orb_true_iff. right. apply andb_true_iff.
      split; [by apply in_int_spec | by apply negb_true_iff, Z.eqb_neq]. }
    destruct (step_stat_enabled w p c r e sb Hr Hc Hpend Hres) as [w' Hstep].
    apply step_stat_Ok in Hstep as Hs. destruct Hs as (c0 & Hc0 & _ & _ & Hs).
    assert (c0 = c) as -> by congruence. rewrite Hpar in Hs.
    apply Z.eqb_neq in Hrn. rewrite Hrn in Hs.
    destruct Hs as (_ & _ & _ & _ & _ & _ & Hcalls).
    exists w'. split; [done|]. rewrite Hcalls. unfold failed_calls.
    rewrite Hst, Hzero. pose proof (int_neg_nonzero e Hei Hen) as Hnz.
    destruct (Z.eqb_spec 0 (int_neg e)); [congruence | done].
Qed.

(** C2: when the stat request of an attached context completes, the timer
    is armed with the delay interval - ((now - start_time) mod interval)
    and [start_time] is left as it is; [start_time] is set to the loop's
    time when the timer fires and the next stat request is issued.  With
    an interval of 100 and a completion 30 after the start of the cycle
    the delay is 70. *)
Theorem timer_delay_is_drift_corrected (w : world) (p h : nat) (c : poll_ctx) :
  reachable w -> heap w !! p = Some c -> parent_handle c = Some h ->
  (forall r e sb, fs_pending (fs_req c) = true -> stat_result_ok r e = true ->
     exists w' c', step w (EvStat p r e sb) = Ok w'
       /\ heap w' !! p = Some c'
       /\ timer_active (timer_handle c') = true
       /\ timer_timeout (timer_handle c')
          = interval c - (time w - start_time c) mod interval c
       /\ start_time c' = start_time c
       /\ (interval c = 100 -> time w = start_time c + 30 ->
           timer_timeout (timer_handle c') = 70))
  /\ (timer_active (timer_handle c) = true ->
      exists w' c', step w (EvTimer p) = Ok w'
        /\ heap w' !! p = Some c'
        /\ fs_pending (fs_req c') = true
        /\ start_time c' = time w).
Proof.
  intros Hr Hc Hpar. apply reachable_inv in Hr.
  destruct (inv_ctx w Hr p c Hc) as [Hiv Hst _ _ _ _].
  pose proof (inv_time w Hr) as Ht. split.
  - intros r e sb Hpend Hres.
    destruct (step_stat_enabled w p c r e sb Hr Hc Hpend Hres) as [w' Hstep].
    apply step_stat_Ok in Hstep as Hs. destruct Hs as (c0 & Hc0 & _ & _ & Hs).
    assert (c0 = c) as -> by congruence. rewrite Hpar in Hs.
    destruct Hs as [_ Hs].
    destruct (next_delay_spec c (time w) Hiv Hst) as [Hd _]; [lia|].
    assert (Hheap : exists c', heap w' = <[p := c']> (heap w)
              /\ timer_handle c'
                 = mk_timer true (timer_closing (timer_handle c))
                     (next_delay c (time w)) false
              /\ start_time c' = start_time c).
    { destruct (r =? 0); destruct Hs as (_ & _ & Hheap & _);
        eexists; (split; [exact Hheap|done]). }
    destruct Hheap as (c' & Hheap & Htm & Hstart).
    exists w', c'. split; [done|]. rewrite Hheap, lookup_insert_eq, Htm. simpl.
    repeat split; try done. intros H100 H30. rewrite Hd, H100, H30.
    replace (start_time c + 30 - start_time c) with 30 by lia. reflexivity.
  - intros Hact.
    destruct (step_timer_enabled w p c Hr Hc Hact) as [w' Hstep].
    apply step_timer_Ok in Hstep as Hs. destruct Hs as (c0 & Hc0 & _ & Hs).
    assert (c0 = c) as -> by congruence. rewrite Hpar in Hs.
    destruct Hs as (_ & _ & _ & Hheap & _).
    eexists w', _. split; [done|]. rewrite Hheap, lookup_insert_eq. done.
Qed.

(** ** What a step of the loop does to one context *)

Lemma ctx_step_refl (c : poll_ctx) : ctx_step c c.
Proof. by repeat split. Qed.

Lemma ctx_step_trans (c1 c2 c3 : poll_ctx) :
  ctx_step c1 c2 -> ctx_step c2 c3 -> ctx_step c1 c3.
Proof.
  intros (H1 & H2 & H3 & H4 & H5) (G1 & G2 & G3 & G4 & G5).
  repeat split; try congruence; auto.
Qed.

Lemma updates_ctx (w w' : world) (p q : nat) (c d' c' : poll_ctx)
    (ks : list cb_call) :
  updates w w' p c' ks -> heap w !! p = Some c -> ctx_step c c' ->
  heap w' !! q = Some d' -> exists d, heap w !! q = Some d /\ ctx_step d d'.
Proof.
  intros (_ & _ & Hheap & _) Hc Hs Hq. rewrite Hheap in Hq.
  destruct (decide (q = p)) as [->|Hne].
  - rewrite lookup_insert_eq in Hq. injection Hq as <-. eauto.
  - rewrite lookup_insert_ne in Hq by done. eauto using ctx_step_refl.
Qed.

Lemma stop_ctx (w : world) (h q : nat) (r : Z * world) (d' : poll_ctx) :
  uv_fs_poll_stop h w = Ok r -> heap r.2 !! q = Some d' ->
  exists d, heap w !! q = Some d /\ ctx_step d d'.
Proof.
  intros H Hq.
  apply uv_fs_poll_stop_Ok in H
    as (hd & Hhd & [[Hact ->]|(p & c & h' & Hact & Hp & Hc & Hpar & ->)]);
    simpl in Hq; [eauto using ctx_step_refl|].
  destruct (decide (q = p)) as [->|Hne].
  - rewrite lookup_insert_eq in Hq. injection Hq as <-.
    exists c. split; [done|]. by repeat split.
  - rewrite lookup_insert_ne in Hq by done. eauto using ctx_step_refl.
Qed.

Lemma step_ctx (w w' : world) (e : event) (q : nat) (d' : poll_ctx) :
  inv w -> step w e = Ok w' -> heap w' !! q = Some d' ->
  (q < next_ctx w)%nat -> exists d, heap w !! q = Some d /\ ctx_step d d'.
Proof.
  intros Hinv H Hq Hlt. destruct e.
  - unfold step in H. ok_all. subst w'. simpl in Hq. eauto using ctx_step_refl.
  - unfold step in H. ok_all.
    match goal with Hs : uv_fs_poll_start _ _ _ _ _ _ = Ok _ |- _ =>
      apply uv_fs_poll_start_Ok in Hs
        as (hd & Hhd & [[Hact ->]|[(Hact & -> & ->)|(Hact & -> & ->)]]) end;
      simpl in H; subst w'; simpl in Hq; eauto using ctx_step_refl.
    rewrite lookup_insert_ne in Hq by lia. eauto using ctx_step_refl.
  - unfold step in H. ok_all. subst w'. eauto using stop_ctx.
  - unfold step, uv__fs_poll_close in H. ok_all. subst w'. eauto using stop_ctx.
  - unfold step in H. ok_all. subst w'. simpl in Hq. eauto using ctx_step_refl.
  - apply step_timer_Ok in H as (c & Hc & _ & H).
    destruct (parent_handle c) eqn:Hpar; [destruct H as [_ H]|];
      (eapply updates_ctx; [exact H | exact Hc | | exact Hq]);
      repeat split; simpl; congruence.
  - apply step_stat_Ok in H as (c & Hc & Hpend & Hres & H).
    destruct (parent_handle c) eqn:Hpar;
      [destruct H as [_ H]; destruct (result_arg =? 0) eqn:Hr|];
      (eapply updates_ctx; [exact H | exact Hc | | exact Hq]);
      repeat split; simpl; try congruence; try lia.
    intros _. apply Z.eqb_neq in Hr.
    destruct (stat_result_ok_failed _ _ Hres Hr). by apply int_neg_nonzero.
  - unfold step, timer_close_cb in H. ok_all. subst w'. simpl in Hq.
    apply lookup_delete_Some in Hq as [_ Hq]. eauto using ctx_step_refl.
Qed.

Lemma step_next_ctx (w w' : world) (e : event) :
  step w e = Ok w' -> (next_ctx w <= next_ctx w')%nat.
Proof.
  intros H. destruct e.
  - unfold step in H. ok_all. by subst w'.
  - unfold step in H. ok_all.
    match goal with Hs : uv_fs_poll_start _ _ _ _ _ _ = Ok _ |- _ =>
      apply uv_fs_poll_start_Ok in Hs
        as (hd & Hhd & [[Hact ->]|[(Hact & -> & ->)|(Hact & -> & ->)]]) end;
      simpl in H; subst w'; simpl; lia.
  - unfold step in H. ok_all. subst w'.
    match goal with Hs : uv_fs_poll_stop _ _ = Ok _ |- _ =>
      apply uv_fs_poll_stop_Ok in Hs
        as (hd & Hhd & [[Hact ->]|(p & c & h' & _ & _ & _ & _ & ->)]) end; done.
  - unfold step, uv__fs_poll_close in H. ok_all. subst w'.
    match goal with Hs : uv_fs_poll_stop _ _ = Ok _ |- _ =>
      apply uv_fs_poll_stop_Ok in Hs
        as (hd & Hhd & [[Hact ->]|(p & c & h' & _ & _ & _ & _ & ->)]) end; done.
  - unfold step in H. ok_all. by subst w'.
  - apply step_timer_Ok in H as (c & _ & _ & H).
    destruct (parent_handle c); [destruct H as [_ H]|];
      destruct H as (_ & _ & _ & -> & _); done.
  - apply step_stat_Ok in H as (c & _ & _ & _ & H).
    destruct (parent_handle c);
      [destruct H as [_ H]; destruct (result_arg =? 0)|];
      destruct H as (_ & _ & _ & -> & _); done.
  - unfold step, timer_close_cb in H. ok_all. by subst w'.
Qed.

(** Over a run: a context that is there at the end was there all along,
    and is related to what it was at the beginning. *)
Lemma run_ctx (evs : list event) (w w' : world) (q : nat) (d' : poll_ctx) :
  inv w -> run evs w = Ok w' -> heap w' !! q = Some d' ->
  (q < next_ctx w)%nat -> exists d, heap w !! q = Some d /\ ctx_step d d'.
Proof.
  revert w. induction evs as [|e evs IH]; simpl; intros w Hinv H Hq Hlt.
  - injection H as <-. eauto using ctx_step_refl.
  - apply res_bind_Ok in H as (w1 & Hstep & H).
    pose proof (step_next_ctx _ _ _ Hstep) as Hn.
    destruct (IH w1) as (d1 & Hd1 & Hs1); eauto using step_inv; [lia|].
    destruct (step_ctx w w1 e q d1) as (d & Hd & Hs); eauto.
    eauto using ctx_step_trans.
Qed.

(** ** The status of a context *)

Lemma status_move_iff (s s' : status) :
  status_move s s' <-> (s' = Unprimed -> s = Unprimed).
Proof.
  split.
  - intros [s0| |]; [done|discriminate|discriminate].
  - intros H. destruct s' as [| |code]; [|constructor|constructor].
    rewrite (H eq_refl). constructor.
Qed.

(** C8: over any run of the loop from a reachable world, the status of a
    context stays, or becomes Primed or Failing; a context that has left
    Unprimed is never Unprimed again. *)
Theorem status_never_returns_to_unprimed (w w' : world) (evs : list event)
    (p : nat) (c c' : poll_ctx) :
  reachable w -> run evs w = Ok w' ->
  heap w !! p = Some c -> heap w' !! p = Some c' ->
  status_move (status_of c) (status_of c')
  /\ (status_of c <> Unprimed -> status_of c' <> Unprimed).
Proof.
  intros Hr Hrun Hc Hc'. apply reachable_inv in Hr.
  destruct (run_ctx evs w w' p c' Hr Hrun Hc') as (d & Hd & Hs);
    [eauto using inv_addr|].
  assert (d = c) as -> by congruence.
  destruct Hs as (_ & _ & _ & Hbp & _).
  assert (Hkeep : status_of c <> Unprimed -> status_of c' <> Unprimed).
  { rewrite !status_unprimed. exact Hbp. }
  split; [|exact Hkeep]. apply status_move_iff. intros Hu.
  destruct (status_of c) eqn:Hsc; [done| |]; by destruct Hkeep.
Qed.

(** ** Callbacks and frees along a run *)

Lemma calls_of_app (p : nat) (w w' : world) (ks : list cb_call) :
  calls w' = calls w ++ ks ->
  calls_of p w' = calls_of p w ++ filter (fun k => cb_ctx k = p) ks.
Proof. unfold calls_of. intros ->. apply filter_app. Qed.

Lemma failed_calls_ctx (p q h : nat) (c : poll_ctx) (e : Z) :
  q <> p -> filter (fun k => cb_ctx k = p) (failed_calls q h c e) = [].
Proof.
  intros Hne. unfold failed_calls. destruct (busy_polling c =? int_neg e); [done|].
  rewrite filter_cons_False; [done|]. simpl. done.
Qed.

Lemma succeeded_calls_ctx (p q h : nat) (c : poll_ctx) (sb : uv_statbuf_t) :
  q <> p -> filter (fun k => cb_ctx k = p) (succeeded_calls q h c sb) = [].
Proof.
  intros Hne. unfold succeeded_calls. destruct (busy_polling c =? 0); [done|].
  destruct ((busy_polling c <? 0) || negb (statbuf_eq cfg (statbuf c) sb)); [|done].
  rewrite filter_cons_False; [done|]. simpl. done.
Qed.

(** A detached context makes no callback, whatever the loop does. *)
Lemma step_detached (w w' : world) (e : event) (p : nat) :
  inv w -> detached p w -> step w e = Ok w' ->
  detached p w' /\ calls_of p w' = calls_of p w.
Proof.
  intros Hinv [Hlt Hdet] H. split.
  - split; [pose proof (step_next_ctx _ _ _ H); lia|].
    intros c' Hc'. destruct (step_ctx w w' e p c' Hinv H Hc' Hlt)
      as (c & Hc & _ & _ & _ & _ & Hpar). eauto.
  - destruct e.
    + unfold step in H. ok_all. by subst w'.
    + unfold step in H. ok_all.
      match goal with Hs : uv_fs_poll_start _ _ _ _ _ _ = Ok _ |- _ =>
        apply uv_fs_poll_start_Ok in Hs
          as (hd & Hhd & [[Hact ->]|[(Hact & -> & ->)|(Hact & -> & ->)]]) end;
        simpl in H; by subst w'.
    + unfold step in H. ok_all. subst w'.
      match goal with Hs : uv_fs_poll_stop _ _ = Ok _ |- _ =>
        apply uv_fs_poll_stop_Ok in Hs
          as (hd & Hhd & [[Hact ->]|(q & c & h' & _ & _ & _ & _ & ->)]) end; done.
    + unfold step, uv__fs_poll_close in H. ok_all. subst w'.
      match goal with Hs : uv_fs_poll_stop _ _ = Ok _ |- _ =>
        apply uv_fs_poll_stop_Ok in Hs
          as (hd & Hhd & [[Hact ->]|(q & c & h' & _ & _ & _ & _ & ->)]) end; done.
    + unfold step in H. ok_all. by subst w'.
    + apply step_timer_Ok in H as (c & _ & _ & H).
      destruct (parent_handle c); [destruct H as [_ H]|];
        destruct H as (_ & _ & _ & _ & _ & Hcalls);
        rewrite (calls_of_app p w w' _ Hcalls); apply app_nil_r.
    + apply step_stat_Ok in H as (c & Hc & _ & _ & H).
      destruct (parent_handle c) as [h|] eqn:Hpar.
      * assert (Hne : p0 <> p).
        { intros ->. specialize (Hdet c Hc). congruence. }
        destruct H as [_ H]. destruct (result_arg =? 0);
          destruct H as (_ & _ & _ & _ & _ & Hcalls);
          rewrite (calls_of_app p w w' _ Hcalls);
          rewrite ?failed_calls_ctx, ?succeeded_calls_ctx by done;
          apply app_nil_r.
      * destruct H as (_ & _ & _ & _ & _ & Hcalls).
        rewrite (calls_of_app p w w' _ Hcalls). apply app_nil_r.
    + unfold step, timer_close_cb in H. ok_all. by subst w'.
Qed.

Lemma run_detached (evs : list event) (w w' : world) (p : nat) :
  inv w -> detached p w -> run evs w = Ok w' ->
  detached p w' /\ calls_of p w' = calls_of p w.
Proof.
  revert w. induction evs as [|e evs IH]; simpl; intros w Hinv Hdet H.
  - by injection H as <-.
  - apply res_bind_Ok in H as (w1 & Hstep & H).
    destruct (step_detached w w1 e p Hinv Hdet Hstep) as [Hdet1 Hcalls1].
    destruct (IH w1) as [Hdet' Hcalls']; eauto using step_inv.
    split; [done | congruence].
Qed.

(** The log of frees only grows, and [EvClosed p] adds [p] to it. *)
Lemma step_freed (w w' : world) (e : event) (q : nat) :
  step w e = Ok w' -> q ∈ freed w -> q ∈ freed w'.
Proof.
  intros H Hq. destruct e.
  - unfold step in H. ok_all. by subst w'.
  - unfold step in H. ok_all.
    match goal with Hs : uv_fs_poll_start _ _ _ _ _ _ = Ok _ |- _ =>
      apply uv_fs_poll_start_Ok in Hs
        as (hd & Hhd & [[Hact ->]|[(Hact & -> & ->)|(Hact & -> & ->)]]) end;
      simpl in H; by subst w'.
  - unfold step in H. ok_all. subst w'.
    match goal with Hs : uv_fs_poll_stop _ _ = Ok _ |- _ =>
      apply uv_fs_poll_stop_Ok in Hs
        as (hd & Hhd & [[Hact ->]|(p & c & h' & _ & _ & _ & _ & ->)]) end; done.
  - unfold step, uv__fs_poll_close in H. ok_all. subst w'.
    match goal with Hs : uv_fs_poll_stop _ _ = Ok _ |- _ =>
      apply uv_fs_poll_stop_Ok in Hs
        as (hd & Hhd & [[Hact ->]|(p & c & h' & _ & _ & _ & _ & ->)]) end; done.
  - unfold step in H. ok_all. by subst w'.
  - apply step_timer_Ok in H as (c & _ & _ & H).
    destruct (parent_handle c); [destruct H as [_ H]|];
      destruct H as (_ & _ & _ & _ & -> & _); done.
  - apply step_stat_Ok in H as (c & _ & _ & _ & H).
    destruct (parent_handle c);
      [destruct H as [_ H]; destruct (result_arg =? 0)|];
      destruct H as (_ & _ & _ & _ & -> & _); done.
  - unfold step, timer_close_cb in H. ok_all. subst w'. simpl.
    apply elem_of_app. by left.
Qed.

Lemma run_freed (evs : list event) (w w' : world) (q : nat) :
  run evs w = Ok w' -> q ∈ freed w -> q ∈ freed w'.
Proof.
  revert w. induction evs as [|e evs IH]; simpl; intros w H Hq.
  - by injection H as <-.
  - apply res_bind_Ok in H as (w1 & Hstep & H). eauto using step_freed.
Qed.

Lemma step_closed_freed (w w' : world) (p : nat) :
  step w (EvClosed p) = Ok w' -> freed w' = freed w ++ [p].
Proof. unfold step, timer_close_cb. intros H. ok_all. by subst w'. Qed.

Lemma filter_count_nodup (p : nat) (l : list nat) :
  NoDup l ->
  (p ∈ l -> length (filter (fun q => q = p) l) = 1%nat)
  /\ (p ∉ l -> length (filter (fun q => q = p) l) = 0%nat).
Proof.
  induction 1 as [|q l Hq Hnd [IH1 IH2]]; simpl.
  - split; [|done]. intros H. by apply elem_of_nil in H.
  - rewrite filter_cons. destruct (decide (q = p)) as [->|Hne]; simpl.
    + rewrite (IH2 Hq). split; [done|]. intros Hn. destruct Hn.
      apply elem_of_cons. by left.
    + rewrite !elem_of_cons. split.
      * intros [?|?]; [congruence | auto].
      * intros Hn. apply IH2. intros Hp. apply Hn. auto.
Qed.

Lemma free_count_nodup (p : nat) (w : world) :
  NoDup (freed w) ->
  (free_count p w <= 1)%nat /\ (p ∈ freed w -> free_count p w = 1%nat)
  /\ (p ∉ freed w -> free_count p w = 0%nat).
Proof.
  intros Hnd. destruct (filter_count_nodup p (freed w) Hnd) as [H1 H0].
  unfold free_count. split; [|done].
  destruct (decide (p ∈ freed w)) as [Hin|Hout]; [rewrite H1 | rewrite H0];
    (done || lia).
Qed.

(** While its stat request is in flight a context stays allocated: only
    the completion of that request ends the wait. *)
Lemma step_pending (w w' : world) (e : event) (p : nat) (c : poll_ctx) :
  inv w -> heap w !! p = Some c -> fs_pending (fs_req c) = true ->
  step w e = Ok w' -> (forall r e0 sb, e <> EvStat p r e0 sb) ->
  exists c', heap w' !! p = Some c' /\ fs_pending (fs_req c') = true.
Proof.
  intros Hinv Hc Hpend H Hev.
  destruct (inv_ctx w Hinv p c Hc) as [_ _ Hexcl _ _ _].
  destruct (Hexcl Hpend) as (Hact & Hcl & Hcn). destruct e.
  - unfold step in H. ok_all. subst w'. simpl. eauto.
  - unfold step in H. ok_all.
    match goal with Hs : uv_fs_poll_start _ _ _ _ _ _ = Ok _ |- _ =>
      apply uv_fs_poll_start_Ok in Hs
        as (hd & Hhd & [[Hact' ->]|[(Hact' & -> & ->)|(Hact' & -> & ->)]]) end;
      simpl in H; subst w'; simpl; eauto.
    pose proof (inv_addr w Hinv p c Hc).
    rewrite lookup_insert_ne by lia. eauto.
  - unfold step in H. ok_all. subst w'.
    match goal with Hs : uv_fs_poll_stop _ _ = Ok _ |- _ =>
      apply uv_fs_poll_stop_Ok in Hs
        as (hd & Hhd & [[Hact' ->]|(q & d & h' & _ & _ & Hd & _ & ->)]) end;
      simpl; eauto.
    destruct (decide (q = p)) as [->|Hne].
    + rewrite lookup_insert_eq. eexists. split; [done|]. simpl. congruence.
    + rewrite lookup_insert_ne by done. eauto.
  - unfold step, uv__fs_poll_close in H. ok_all. subst w'.
    match goal with Hs : uv_fs_poll_stop _ _ = Ok _ |- _ =>
      apply uv_fs_poll_stop_Ok in Hs
        as (hd & Hhd & [[Hact' ->]|(q & d & h' & _ & _ & Hd & _ & ->)]) end;
      simpl; eauto.
    destruct (decide (q = p)) as [->|Hne].
    + rewrite lookup_insert_eq. eexists. split; [done|]. simpl. congruence.
    + rewrite lookup_insert_ne by done. eauto.
  - unfold step in H. ok_all. subst w'. simpl. eauto.
  - apply step_timer_Ok in H as (d & Hd & Hdact & H).
    assert (Hne : p0 <> p).
    { intros ->. assert (d = c) as -> by congruence.
      rewrite Hact, Hcn in Hdact. discriminate. }
    destruct (parent_handle d); [destruct H as [_ H]|];
      destruct H as (_ & _ & -> & _); rewrite lookup_insert_ne by done; eauto.
  - assert (Hne : p0 <> p) by (intros ->; by eapply Hev).
    apply step_stat_Ok in H as (d & Hd & _ & _ & H).
    destruct (parent_handle d);
      [destruct H as [_ H]; destruct (result_arg =? 0)|];
      destruct H as (_ & _ & -> & _); rewrite lookup_insert_ne by done; eauto.
  - unfold step, timer_close_cb in H. ok_all. subst w'. simpl.
    assert (Hne : p0 <> p) by (intros ->; congruence).
    rewrite lookup_delete_ne by done. eauto.
Qed.

Lemma run_pending (evs : list event) (w w' : world) (p : nat) (c : poll_ctx) :
  inv w -> heap w !! p = Some c -> fs_pending (fs_req c) = true ->
  run evs w = Ok w' -> (forall r e0 sb, EvStat p r e0 sb ∉ evs) ->
  exists c', heap w' !! p = Some c' /\ fs_pending (fs_req c') = true.
Proof.
  revert w c. induction evs as [|e evs IH]; simpl; intros w c Hinv Hc Hpend H Hev.
  - injection H as <-. eauto.
  - apply res_bind_Ok in H as (w1 & Hstep & H).
    destruct (step_pending w w1 e p c Hinv Hc Hpend Hstep) as (c1 & Hc1 & Hp1).
    + intros r e0 sb ->. eapply Hev. apply elem_of_cons. by left.
    + eapply (IH w1 c1); eauto using step_inv.
      intros r e0 sb Hin. eapply Hev. apply elem_of_cons. right. exact Hin.
Qed.

(** ** Stopping while a stat request is in flight *)

(** C1: let the handle be active and the stat request of its context be
    in flight.  Then [uv_fs_poll_stop] returns, and from there on,
    whatever the loop does: the context makes no callback; it is freed at
    most once; it is not freed before the completion of the stat request
    is delivered; it has been freed exactly once when the close callback
    that the completion asks for has been delivered.  The completion, and
    then the close callback, can be delivered, and the context is then
    freed once and no callback was made. *)
Theorem stop_during_stat_frees_once (w : world) (h p : nat)
    (hd : uv_fs_poll_t) (c : poll_ctx) :
  reachable w -> handles w !! h = Some hd -> active hd = true ->
  h_poll_ctx hd = Some p -> heap w !! p = Some c ->
  fs_pending (fs_req c) = true ->
  exists w1, step w (EvStop h) = Ok w1
    /\ (forall evs w', run evs w1 = Ok w' ->
          calls_of p w' = calls_of p w
          /\ (free_count p w' <= 1)%nat
          /\ ((forall r e sb, EvStat p r e sb ∉ evs) -> free_count p w' = 0%nat)
          /\ (EvClosed p ∈ evs -> free_count p w' = 1%nat))
    /\ (forall r e sb, stat_result_ok r e = true ->
          exists w2 w3, step w1 (EvStat p r e sb) = Ok w2
            /\ free_count p w2 = 0%nat
            /\ step w2 (EvClosed p) = Ok w3
            /\ free_count p w3 = 1%nat
            /\ heap w3 !! p = None
            /\ calls w3 = calls w).
Proof.
  intros Hr Hh Hact Hp Hc Hpend. apply reachable_inv in Hr as Hinv.
  destruct (stop_returns w h hd Hinv Hh) as [w1 Hstop].
  assert (Hstep : step w (EvStop h) = Ok w1) by (simpl; by rewrite Hstop).
  pose proof (step_inv _ _ _ Hinv Hstep) as Hinv1.
  apply uv_fs_poll_stop_Ok in Hstop
    as (hd0 & Hhd0 & [[Hact0 _]|(q & d & h' & _ & Hq & Hd & Hpar & Hw1)]);
    [congruence|].
  assert (hd0 = hd) as -> by congruence.
  assert (q = p) as -> by congruence.
  assert (d = c) as -> by congruence.
  injection Hw1 as ->.
  set (c1 := set_timer_handle (uv_timer_stop (timer_handle c)).2
               (set_parent_handle None c)) in *.
  set (w1 := store_handle h (mk_handle false None) (store p c1 w)) in *.
  assert (Hc1 : heap w1 !! p = Some c1) by (simpl; by rewrite lookup_insert_eq).
  assert (Hpend1 : fs_pending (fs_req c1) = true) by done.
  assert (Hdet1 : detached p w1).
  { split; [simpl; eauto using inv_addr|]. intros c' Hc'.
    assert (c' = c1) as -> by congruence. done. }
  assert (Hnf1 : p ∉ freed w1).
  { intros Hin. destruct (inv_freed w1 Hinv1 p Hin). congruence. }
  exists w1. split; [done|]. split.
  - intros evs w' Hrun. pose proof (run_inv _ _ _ Hinv1 Hrun) as Hinv'.
    destruct (run_detached evs w1 w' p Hinv1 Hdet1 Hrun) as [_ Hcalls].
    destruct (free_count_nodup p w' (inv_nodup w' Hinv')) as (Hle & Hone & Hzero).
    split; [by rewrite Hcalls|]. split; [done|]. split.
    + intros Hev. apply Hzero. intros Hin.
      destruct (run_pending evs w1 w' p c1 Hinv1 Hc1 Hpend1 Hrun Hev)
        as (c' & Hc' & _).
      destruct (inv_freed w' Hinv' p Hin). congruence.
    + intros Hin. apply Hone. apply list_elem_of_split in Hin as (l1 & l2 & ->).
      apply run_app in Hrun as (wa & _ & Hrun). simpl in Hrun.
      apply res_bind_Ok in Hrun as (wb & Hcl & Hrun).
      eapply run_freed; [exact Hrun|]. rewrite (step_closed_freed _ _ _ Hcl).
      apply elem_of_app. right. by apply list_elem_of_singleton.
  - intros r e sb Hres.
    destruct (step_stat_enabled w1 p c1 r e sb Hinv1 Hc1 Hpend1 Hres)
      as [w2 Hstat].
    pose proof (step_inv _ _ _ Hinv1 Hstat) as Hinv2.
    apply step_stat_Ok in Hstat as Hs. destruct Hs as (c0 & Hc0 & _ & _ & Hs).
    assert (c0 = c1) as -> by congruence. simpl in Hs.
    destruct Hs as (_ & _ & Hheap2 & _ & Hfreed2 & Hcalls2).
    assert (Hnf2 : p ∉ freed w2) by (by rewrite Hfreed2).
    edestruct (step_closed_enabled w2 p) as [w3 Hclosed].
    { rewrite Hheap2. apply lookup_insert_eq. }
    { done. }
    pose proof (step_inv _ _ _ Hinv2 Hclosed) as Hinv3.
    pose proof (step_closed_freed _ _ _ Hclosed) as Hfreed3.
    exists w2, w3. split; [done|].
    destruct (free_count_nodup p w2 (inv_nodup w2 Hinv2)) as (_ & _ & Hz2).
    destruct (free_count_nodup p w3 (inv_nodup w3 Hinv3)) as (_ & Ho3 & _).
    split; [by apply Hz2|]. split; [done|]. split.
    { apply Ho3. rewrite Hfreed3. apply elem_of_app. right.
      by apply list_elem_of_singleton. }
    split.
    { assert (Hin3 : p ∈ freed w3).
      { rewrite Hfreed3. apply elem_of_app. right. by apply list_elem_of_singleton. }
      by destruct (inv_freed w3 Hinv3 p Hin3). }
    unfold step, timer_close_cb in Hclosed. ok_all. subst w3. simpl.
    rewrite Hcalls2. simpl. apply app_nil_r.
Qed.

(** ** Failed stat requests *)

Lemma int_neg_inj (e e' : Z) :
  is_int e -> is_int e' -> int_neg e = int_neg e' -> e = e'.
Proof.
  unfold is_int, INT_MIN, INT_MAX, int_neg, to_int. intros [H1 H2] [H3 H4] H.
  assert (Hm : (- e + 2 ^ 31) mod 2 ^ 32 = (- e' + 2 ^ 31) mod 2 ^ 32) by lia.
  destruct (Z.eq_dec e (- 2 ^ 31)) as [->|Hne];
    destruct (Z.eq_dec e' (- 2 ^ 31)) as [->|Hne']; [done| | |].
  - rewrite (Z.mod_small (- e' + 2 ^ 31)) in Hm by lia.
    change ((- - 2 ^ 31 + 2 ^ 31) mod 2 ^ 32) with 0 in Hm. lia.
  - rewrite (Z.mod_small (- e + 2 ^ 31)) in Hm by lia.
    change ((- - 2 ^ 31 + 2 ^ 31) mod 2 ^ 32) with 0 in Hm. lia.
  - rewrite !Z.mod_small in Hm by lia. lia.
Qed.

(** X1, what a failed stat request does for an attached context: the user
    callback is invoked, with status -1, the stored snapshot and the
    zeroed sentinel, exactly when [busy_polling] is not already the
    negated error code; afterwards it is.  So a failure with the code of
    the failure before makes no callback, and a failure with another code
    than the failure before makes one. *)
Theorem failed_stat_reports_on_change (w : world) (p h : nat) (c : poll_ctx)
    (r e : Z) (sb : uv_statbuf_t) :
  reachable w -> heap w !! p = Some c -> parent_handle c = Some h ->
  fs_pending (fs_req c) = true -> r <> 0 -> stat_result_ok r e = true ->
  exists w' c', step w (EvStat p r e sb) = Ok w'
    /\ heap w' !! p = Some c'
    /\ busy_polling c' = int_neg e
    /\ statbuf c' = statbuf c
    /\ calls w' = calls w ++
         (if busy_polling c =? int_neg e then []
          else [mk_cb_call p (ctx_poll_cb c) h (-1) (statbuf c) zero_statbuf])
    /\ (busy_polling c = int_neg e -> calls w' = calls w)
    /\ (forall e0, is_int e0 -> e0 <> e -> busy_polling c = int_neg e0 ->
        calls w' = calls w ++
          [mk_cb_call p (ctx_poll_cb c) h (-1) (statbuf c) zero_statbuf]).
Proof.
  intros Hr Hc Hpar Hpend Hrn Hres. apply reachable_inv in Hr.
  destruct (stat_result_ok_failed r e Hres Hrn) as [Hei _].
  destruct (step_stat_enabled w p c r e sb Hr Hc Hpend Hres) as [w' Hstep].
  apply step_stat_Ok in Hstep as Hs. destruct Hs as (c0 & Hc0 & _ & _ & Hs).
  assert (c0 = c) as -> by congruence. rewrite Hpar in Hs.
  apply Z.eqb_neq in Hrn. rewrite Hrn in Hs.
  destruct Hs as (_ & _ & _ & Hheap & _ & _ & Hcalls).
  unfold failed_calls in Hcalls.
  eexists w', _. split; [done|]. rewrite Hheap, lookup_insert_eq.
  split; [reflexivity|]. simpl. do 3 (split; [done|]). split.
  - intros Hsame. rewrite Hcalls, Hsame, Z.eqb_refl. apply app_nil_r.
  - intros e0 Hei0 Hne Hbp. rewrite Hcalls.
    destruct (Z.eqb_spec (busy_polling c) (int_neg e)) as [Heq|_]; [|done].
    destruct Hne. apply int_neg_inj; congruence.
Qed.

(** C5, the code at the failing input: a stat succeeds, the timer fires,
    and the next stat fails with the error code -1 ([UV_UNKNOWN]).  No
    callback has been made, and [busy_polling] is still 1. *)
Theorem unknown_error_after_success_is_not_reported :
  exists w c,
    run [EvInit 7%nat; EvStart 7%nat 1%nat "f" 100 true;
         EvStat 0%nat 0 0 snapshot_root; EvTimer 0%nat;
         EvStat 0%nat (-1) (-1) snapshot_root] init = Ok w
    /\ calls w = []
    /\ heap w !! 0%nat = Some c
    /\ busy_polling c = 1 /\ status_of c = Primed.
Proof.
  match goal with |- context [run ?l ?i] =>
    set (r := run l i); vm_compute in r end.
  eexists _, _. split; [reflexivity|]. split; [reflexivity|].
  split; [vm_compute; reflexivity|]. done.
Qed.

(** * More of the poller *)

(** ** The comparator as a relation *)

(** [statbuf_eq] compares the fields of [compared_fields], and no other. *)
Lemma statbuf_eq_fields (a b : uv_statbuf_t) :
  statbuf_eq cfg a b = true <-> compared_fields a = compared_fields b.
Proof.
  unfold statbuf_eq, compared_fields.
  destruct (def_WIN32 cfg); simpl.
  - rewrite !andb_true_iff, !Z.eqb_eq. split; [intros [[-> ->] ->]; done|].
    intros [= -> -> ->]. done.
  - destruct (Z.eqb_spec (st_ctim_nsec a) (st_ctim_nsec b)) as [Hc|Hc];
    destruct (Z.eqb_spec (st_mtim_nsec a) (st_mtim_nsec b)) as [Hm|Hm];
    destruct (def_linux cfg), (def_APPLE cfg); simpl;
    rewrite ?andb_true_iff, ?Z.eqb_eq;
    (split; [intros H; try discriminate H; intuition congruence
            | intros [= ]; try congruence; intuition congruence]).
Qed.

(** X4: on every build [statbuf_eq] is an equivalence relation: every
    snapshot equals itself, and equality is symmetric and transitive. *)
Theorem statbuf_eq_is_an_equivalence :
  (forall a, statbuf_eq cfg a a = true)
  /\ (forall a b, statbuf_eq cfg a b = statbuf_eq cfg b a)
  /\ (forall a b c, statbuf_eq cfg a b = true -> statbuf_eq cfg b c = true ->
        statbuf_eq cfg a c = true).
Proof.
  split; [|split].
  - intros a. by apply statbuf_eq_fields.
  - intros a b. destruct (statbuf_eq cfg a b) eqn:Hab;
      destruct (statbuf_eq cfg b a) eqn:Hba; try done.
    + apply statbuf_eq_fields in Hab. symmetry in Hab.
      apply statbuf_eq_fields in Hab. congruence.
    + apply statbuf_eq_fields in Hba. symmetry in Hba.
      apply statbuf_eq_fields in Hba. congruence.
  - intros a b c Hab Hbc. apply statbuf_eq_fields in Hab, Hbc.
    apply statbuf_eq_fields. congruence.
Qed.

Lemma statbuf_eq_untracked (a b : uv_statbuf_t) (nlink rdev atime : Z) :
  statbuf_eq cfg b (with_untracked nlink rdev atime a) = statbuf_eq cfg b a.
Proof. reflexivity. Qed.

(** X5: what a build without [_WIN32] finds equal, a build that reads
    whole seconds only finds equal, and so does a build with [_WIN32]: a
    change that the Windows comparator sees is seen on every build. *)
Theorem statbuf_eq_coarsens (a b : uv_statbuf_t) :
  def_WIN32 cfg = false -> statbuf_eq cfg a b = true ->
  statbuf_eq other_unix_build a b = true
  /\ statbuf_eq windows_build a b = true.
Proof.
  intros Hwin H. apply statbuf_eq_fields in H. unfold compared_fields in H.
  rewrite Hwin in H. simpl in H.
  injection H as Hct Hmt Hsz Hmd Hu Hg Hi Hd _.
  unfold statbuf_eq. simpl. rewrite !andb_true_iff, !Z.eqb_eq. done.
Qed.

(** ** Every context waits for exactly one operation *)

(** Split a step into the cases of the code: the event, and within it the
    branch taken. *)
Ltac step_split H :=
  match type of H with
  | step ?w ?ev = Ok ?w' =>
    destruct ev as [h|h cb pa iv a|h|h|now|p|p r e0 sb|p];
    [ unfold step in H; ok_all; subst w'
    | unfold step in H; ok_all;
      match goal with Hs : uv_fs_poll_start _ _ _ _ _ _ = Ok _ |- _ =>
        apply uv_fs_poll_start_Ok in Hs
          as (hd & Hhd & [[Hact ->]|[(Hact & -> & ->)|(Hact & -> & ->)]])
      end; simpl in H; subst w'
    | unfold step in H; ok_all; subst w';
      match goal with Hs : uv_fs_poll_stop _ _ = Ok _ |- _ =>
        apply uv_fs_poll_stop_Ok in Hs
          as (hd & Hhd & [[Hact ->]|(p & c & h' & Hact & Hp & Hc & Hpar & ->)])
      end
    | unfold step, uv__fs_poll_close in H; ok_all; subst w';
      match goal with Hs : uv_fs_poll_stop _ _ = Ok _ |- _ =>
        apply uv_fs_poll_stop_Ok in Hs
          as (hd & Hhd & [[Hact ->]|(p & c & h' & Hact & Hp & Hc & Hpar & ->)])
      end
    | unfold step in H; ok_all; subst w'
    | apply step_timer_Ok in H as (c & Hc & Hfire & H);
      destruct (parent_handle c) as [h|] eqn:Hpar;
      [destruct H as [Hhandle H]|]
    | apply step_stat_Ok in H as (c & Hc & Hpend & Hres & H);
      destruct (parent_handle c) as [h|] eqn:Hpar;
      [destruct H as [Hnz H]; destruct (r =? 0) eqn:Hr|]
    | unfold step, timer_close_cb in H; ok_all; subst w' ]
  end.

Lemma outstanding_one (c : poll_ctx) :
  outstanding c = 1%nat ->
  (fs_pending (fs_req c) = true ->
     timer_active (timer_handle c) = false
     /\ timer_closing (timer_handle c) = false
     /\ timer_cancelled (timer_handle c) = false)
  /\ (timer_active (timer_handle c) = true ->
     fs_pending (fs_req c) = false
     /\ timer_closing (timer_handle c) = false
     /\ timer_cancelled (timer_handle c) = false)
  /\ (timer_closing (timer_handle c) = true ->
     fs_pending (fs_req c) = false
     /\ timer_active (timer_handle c) = false
     /\ timer_cancelled (timer_handle c) = false)
  /\ (timer_cancelled (timer_handle c) = true ->
     fs_pending (fs_req c) = false
     /\ timer_active (timer_handle c) = false
     /\ timer_closing (timer_handle c) = false).
Proof.
  unfold outstanding.
  destruct (fs_pending (fs_req c)), (timer_active (timer_handle c)),
    (timer_closing (timer_handle c)), (timer_cancelled (timer_handle c));
    simpl; intros H; try discriminate H; repeat split; done.
Qed.

Lemma updates_loop (w w' : world) (p : nat) (c c' : poll_ctx)
    (ks : list cb_call) :
  inv_loop w -> inv w' -> heap w !! p = Some c -> updates w w' p c' ks ->
  outstanding c' = 1%nat ->
  (forall k, k ∈ ks -> cb_ctx k = p) ->
  inv_loop w'.
Proof.
  intros [Hinv Hone Hcalls] Hinv' Hc (_ & _ & Hheap & Hn & _ & Hks)
    Hc' Hk.
  split; [done| |].
  - intros q d. rewrite Hheap. destruct (decide (q = p)) as [->|Hne].
    + rewrite lookup_insert_eq. by intros [= <-].
    + rewrite lookup_insert_ne by done. eauto.
  - intros k. rewrite Hks, Hn, elem_of_app. intros [Hin|Hin]; [eauto|].
    rewrite (Hk k Hin). eauto using inv_addr.
Qed.

Lemma failed_calls_of (p h : nat) (c : poll_ctx) (e : Z) (k : cb_call) :
  k ∈ failed_calls p h c e ->
  k = mk_cb_call p (ctx_poll_cb c) h (-1) (statbuf c) zero_statbuf.
Proof.
  unfold failed_calls. destruct (busy_polling c =? int_neg e).
  - intros H. by apply elem_of_nil in H.
  - intros H. by apply list_elem_of_singleton in H.
Qed.

Lemma succeeded_calls_of (p h : nat) (c : poll_ctx) (sb : uv_statbuf_t)
    (k : cb_call) :
  k ∈ succeeded_calls p h c sb ->
  k = mk_cb_call p (ctx_poll_cb c) h 0 (statbuf c) sb.
Proof.
  unfold succeeded_calls. destruct (busy_polling c =? 0).
  - intros H. by apply elem_of_nil in H.
  - destruct ((busy_polling c <? 0) || negb (statbuf_eq cfg (statbuf c) sb)).
    + intros H. by apply list_elem_of_singleton in H.
    + intros H. by apply elem_of_nil in H.
Qed.

(** Decide a goal about the four flags of context [c] by cases, with
    what [inv] and [outstanding c = 1] say about them. *)
Ltac flags_of w c Hinv Hone Hc :=
  let Ho := fresh "Ho" in let Hcl := fresh "Hcl" in let Hcn := fresh "Hcn" in
  pose proof (Hone _ c Hc) as Ho;
  destruct (inv_ctx w Hinv _ c Hc) as [_ _ _ Hcl Hcn _];
  unfold outstanding in *; simpl in *;
  destruct (fs_pending (fs_req c)), (timer_active (timer_handle c)),
    (timer_closing (timer_handle c)), (timer_cancelled (timer_handle c));
  simpl in *; try done;
  try (destruct (Hcl eq_refl); congruence);
  try (specialize (Hcn eq_refl); congruence).

Lemma step_inv_loop (e : event) (w w' : world) :
  inv_loop w -> step w e = Ok w' -> inv_loop w'.
Proof.
  intros Hl H. pose proof (step_inv e w w' (loop_inv w Hl) H) as Hinv'.
  destruct Hl as [Hinv Hone Hcalls].
  assert (Hl : inv_loop w) by (by split).
  step_split H.
  - by split.
  - done.
  - by split.
  - split; [done| |]; simpl.
    + intros q d. destruct (decide (q = next_ctx w)) as [->|Hne].
      * rewrite lookup_insert_eq. by intros [= <-].
      * rewrite lookup_insert_ne by done. eauto.
    + intros k Hk. specialize (Hcalls k Hk). lia.
  - done.
  - split; [done| |]; simpl; [|done].
    intros q d. destruct (decide (q = p)) as [->|Hne].
    + rewrite lookup_insert_eq. intros [= <-]. flags_of w c Hinv Hone Hc.
    + rewrite lookup_insert_ne by done. eauto.
  - done.
  - split; [done| |]; simpl; [|done].
    intros q d. destruct (decide (q = p)) as [->|Hne].
    + rewrite lookup_insert_eq. intros [= <-]. flags_of w c Hinv Hone Hc.
    + rewrite lookup_insert_ne by done. eauto.
  - by split.
  - apply (updates_loop w w' p c _ _ Hl Hinv' Hc H);
      [|intros k Hk; by apply elem_of_nil in Hk].
    flags_of w c Hinv Hone Hc.
  - apply (updates_loop w w' p c _ _ Hl Hinv' Hc H);
      [|intros k Hk; by apply elem_of_nil in Hk].
    flags_of w c Hinv Hone Hc.
  - apply (updates_loop w w' p c _ _ Hl Hinv' Hc H);
      [|intros k Hk; by rewrite (succeeded_calls_of _ _ _ _ _ Hk)].
    flags_of w c Hinv Hone Hc.
  - apply (updates_loop w w' p c _ _ Hl Hinv' Hc H);
      [|intros k Hk; by rewrite (failed_calls_of _ _ _ _ _ Hk)].
    flags_of w c Hinv Hone Hc.
  - apply (updates_loop w w' p c _ _ Hl Hinv' Hc H);
      [|intros k Hk; by apply elem_of_nil in Hk].
    flags_of w c Hinv Hone Hc.
  - split; [done| |]; simpl; [|done].
    intros q d Hq. apply lookup_delete_Some in Hq as [_ Hq]. eauto.
Qed.

Lemma run_inv_loop (evs : list event) (w w' : world) :
  inv_loop w -> run evs w = Ok w' -> inv_loop w'.
Proof.
  revert w. induction evs as [|e evs IH]; simpl; intros w Hl H.
  - by injection H as <-.
  - apply res_bind_Ok in H as (w1 & Hstep & H). eauto using step_inv_loop.
Qed.

Lemma reachable_inv_loop (w : world) : reachable w -> inv_loop w.
Proof.
  intros [evs H]. eapply run_inv_loop; [|exact H].
  split; [apply inv_init | done |].
  intros k Hk. by apply elem_of_nil in Hk.
Qed.

(** X6: in every reachable world every allocated context waits for
    exactly one operation: its stat request in flight, its armed timer,
    the close callback of its timer, or the callback of its timer that
    was stopped while armed; never two of them and never none.  So
    [uv_close] is not asked for twice, and no context is left without a
    delivery that leads on.  For an attached context the one operation is
    the stat request in flight or the armed timer. *)
Theorem one_operation_is_outstanding (w : world) (p : nat) (c : poll_ctx) :
  reachable w -> heap w !! p = Some c ->
  outstanding c = 1%nat
  /\ (forall h, parent_handle c = Some h ->
        timer_closing (timer_handle c) = false
        /\ timer_cancelled (timer_handle c) = false
        /\ fs_pending (fs_req c) = negb (timer_active (timer_handle c))).
Proof.
  intros Hr Hc. apply reachable_inv_loop in Hr as [Hinv Hone _].
  split; [eauto|].
  intros h Hpar. flags_of w c Hinv Hone Hc.
Qed.

(** ** More of the stat completion handler *)

(** The stat request of an attached context completes: the step is taken
    and the context is rewritten as [poll_cb] does. *)
Lemma stat_attached_step (w : world) (p h : nat) (c : poll_ctx) (r e : Z)
    (sb : uv_statbuf_t) :
  inv w -> heap w !! p = Some c -> parent_handle c = Some h ->
  fs_pending (fs_req c) = true -> stat_result_ok r e = true ->
  exists w' c', step w (EvStat p r e sb) = Ok w'
    /\ heap w' !! p = Some c'
    /\ timer_handle c'
       = mk_timer true (timer_closing (timer_handle c))
           (next_delay c (time w)) false
    /\ statbuf c' = (if r =? 0 then sb else statbuf c)
    /\ busy_polling c' = (if r =? 0 then 1 else int_neg e)
    /\ calls w' = calls w ++
         (if r =? 0 then succeeded_calls p h c sb else failed_calls p h c e).
Proof.
  intros Hinv Hc Hpar Hpend Hres.
  destruct (step_stat_enabled w p c r e sb Hinv Hc Hpend Hres) as [w' Hstep].
  apply step_stat_Ok in Hstep as Hs. destruct Hs as (c0 & Hc0 & _ & _ & Hs).
  assert (c0 = c) as -> by congruence. rewrite Hpar in Hs.
  destruct Hs as [_ Hs]. exists w'.
  destruct (r =? 0); destruct Hs as (_ & _ & Hheap & _ & _ & Hcalls);
    eexists; (split; [done|]); rewrite Hheap, lookup_insert_eq;
    (split; [reflexivity|]); simpl; done.
Qed.

(** X7: the delay that [poll_cb] arms the timer with is at least 1 and at
    most the interval, and it ends on a multiple of the interval after the
    start of the cycle. *)
Theorem timer_delay_ends_on_the_grid (w : world) (p h : nat) (c : poll_ctx)
    (r e : Z) (sb : uv_statbuf_t) :
  reachable w -> heap w !! p = Some c -> parent_handle c = Some h ->
  fs_pending (fs_req c) = true -> stat_result_ok r e = true ->
  exists w' c', step w (EvStat p r e sb) = Ok w'
    /\ heap w' !! p = Some c'
    /\ timer_active (timer_handle c') = true
    /\ 1 <= timer_timeout (timer_handle c') <= interval c
    /\ (time w + timer_timeout (timer_handle c') - start_time c)
         mod interval c = 0.
Proof.
  intros Hr Hc Hpar Hpend Hres. apply reachable_inv in Hr.
  destruct (stat_attached_step w p h c r e sb Hr Hc Hpar Hpend Hres)
    as (w' & c' & Hstep & Hc' & Htm & _).
  destruct (inv_ctx w Hr p c Hc) as [Hiv Hst _ _ _ _].
  pose proof (inv_time w Hr) as Ht.
  destruct (next_delay_spec c (time w) Hiv Hst) as [Hd Hb]; [lia|].
  exists w', c'. rewrite Htm. simpl. do 3 (split; [done|]). split; [done|].
  rewrite Hd.
  pose proof (Z.div_mod (time w - start_time c) (interval c)) as Hdm.
  replace (time w + (interval c - (time w - start_time c) mod interval c)
           - start_time c)
    with (((time w - start_time c) / interval c + 1) * interval c) by lia.
  apply Z_mod_mult.
Qed.

(** X8: when the stat request of an attached context succeeds after a
    failure ([busy_polling] is negative), the user callback is invoked
    once, with status 0, the snapshot stored before the failure and the
    new snapshot, whether or not the two are equal. *)
Theorem recovery_is_always_reported (w : world) (p h : nat) (c : poll_ctx)
    (e : Z) (sb : uv_statbuf_t) :
  reachable w -> heap w !! p = Some c -> parent_handle c = Some h ->
  fs_pending (fs_req c) = true -> busy_polling c < 0 ->
  exists w' c', step w (EvStat p 0 e sb) = Ok w'
    /\ calls w' = calls w ++ [mk_cb_call p (ctx_poll_cb c) h 0 (statbuf c) sb]
    /\ heap w' !! p = Some c'
    /\ statbuf c' = sb /\ status_of c' = Primed.
Proof.
  intros Hr Hc Hpar Hpend Hneg. apply reachable_inv in Hr.
  destruct (stat_attached_step w p h c 0 e sb Hr Hc Hpar Hpend eq_refl)
    as (w' & c' & Hstep & Hc' & _ & Hsb & Hbp & Hcalls).
  simpl in *. exists w', c'. split; [done|]. split.
  - rewrite Hcalls. unfold succeeded_calls.
    destruct (Z.eqb_spec (busy_polling c) 0); [lia|].
    destruct (Z.ltb_spec (busy_polling c) 0); [done|lia].
  - do 2 (split; [done|]). unfold status_of. by rewrite Hbp.
Qed.

(** X9: when the stat request of an attached, Primed context returns the
    stored snapshot with another link count, device of a special file or
    access time, the user callback is not invoked: reading the file is
    not a change. *)
Theorem untracked_change_is_not_reported (w : world) (p h : nat)
    (c : poll_ctx) (e nlink rdev atime : Z) :
  reachable w -> heap w !! p = Some c -> parent_handle c = Some h ->
  fs_pending (fs_req c) = true -> status_of c = Primed ->
  exists w' c',
    step w (EvStat p 0 e (with_untracked nlink rdev atime (statbuf c))) = Ok w'
    /\ calls w' = calls w
    /\ heap w' !! p = Some c'
    /\ statbuf c' = with_untracked nlink rdev atime (statbuf c).
Proof.
  intros Hr Hc Hpar Hpend Hst. apply reachable_inv in Hr.
  apply status_primed in Hst.
  destruct (stat_attached_step w p h c 0 e
              (with_untracked nlink rdev atime (statbuf c)) Hr Hc Hpar Hpend
              eq_refl)
    as (w' & c' & Hstep & Hc' & _ & Hsb & _ & Hcalls).
  simpl in *. exists w', c'. split; [done|]. split; [|done].
  rewrite Hcalls. unfold succeeded_calls.
  destruct (Z.eqb_spec (busy_polling c) 0); [lia|].
  destruct (Z.ltb_spec (busy_polling c) 0); [lia|].
  rewrite statbuf_eq_untracked.
  rewrite (proj2 (statbuf_eq_fields (statbuf c) (statbuf c)) eq_refl).
  simpl. apply app_nil_r.
Qed.

(** What a step adds to the log of callbacks. *)
Lemma step_calls (w w' : world) (e : event) :
  step w e = Ok w' ->
  exists ks, calls w' = calls w ++ ks
    /\ (length ks <= 1)%nat
    /\ forall k, k ∈ ks ->
         exists p r e0 sb c h,
           e = EvStat p r e0 sb /\ heap w !! p = Some c
           /\ parent_handle c = Some h
           /\ cb_ctx k = p /\ call_ok (ctx_poll_cb c) h k
           /\ cb_prev k = statbuf c.
Proof.
  intros H.
  assert (Hnone : calls w' = calls w ->
    exists ks, calls w' = calls w ++ ks /\ (length ks <= 1)%nat
      /\ forall k, k ∈ ks ->
         exists p r e0 sb c h,
           e = EvStat p r e0 sb /\ heap w !! p = Some c
           /\ parent_handle c = Some h
           /\ cb_ctx k = p /\ call_ok (ctx_poll_cb c) h k
           /\ cb_prev k = statbuf c).
  { intros Heq. exists []. rewrite app_nil_r. split; [done|].
    split; [simpl; lia|]. intros k Hk. by apply elem_of_nil in Hk. }
  step_split H; try (apply Hnone; done);
    try (apply Hnone; destruct H as (_ & _ & _ & _ & _ & ->);
         apply app_nil_r).
  - destruct H as (_ & _ & _ & _ & _ & Hcalls).
    exists (succeeded_calls p h c sb). split; [done|]. split.
    + unfold succeeded_calls. repeat case_match; simpl; lia.
    + intros k Hk. rewrite (succeeded_calls_of _ _ _ _ _ Hk).
      exists p, r, e0, sb, c, h. unfold call_ok. simpl. tauto.
  - destruct H as (_ & _ & _ & _ & _ & Hcalls).
    exists (failed_calls p h c e0). split; [done|]. split.
    + unfold failed_calls. repeat case_match; simpl; lia.
    + intros k Hk. rewrite (failed_calls_of _ _ _ _ _ Hk).
      exists p, r, e0, sb, c, h. unfold call_ok. simpl. tauto.
Qed.

(** X10: the user callback is invoked by the completion of a stat request
    and by nothing else, not by start, stop or close, not by the timer;
    a completion invokes it at most once, and then for an attached
    context, with the callback and the handle of that context, with
    status 0 or with status -1 and the zeroed sentinel, and with the
    stored snapshot as the previous one. *)
Theorem callbacks_come_from_stat_completions (w w' : world) (e : event) :
  step w e = Ok w' ->
  exists ks, calls w' = calls w ++ ks
    /\ (length ks <= 1)%nat
    /\ forall k, k ∈ ks ->
         exists p r e0 sb c h,
           e = EvStat p r e0 sb /\ heap w !! p = Some c
           /\ parent_handle c = Some h
           /\ cb_ctx k = p /\ call_ok (ctx_poll_cb c) h k
           /\ cb_prev k = statbuf c.
Proof. apply step_calls. Qed.

(** ** The assertions hold *)

Lemma step_timer_fires (w : world) (p : nat) (c : poll_ctx) :
  inv w -> heap w !! p = Some c ->
  timer_active (timer_handle c) || timer_cancelled (timer_handle c) = true ->
  exists w', step w (EvTimer p) = Ok w'.
Proof.
  intros Hinv Hc Hfire. unfold step.
  apply load_Ok in Hc as Hl. rewrite Hl. simpl. rewrite Hfire. simpl.
  unfold timer_cb. rewrite load_store. simpl.
  destruct (parent_handle c) as [h|] eqn:Hpar; [|eauto].
  pose proof (inv_parent w Hinv p c h Hc Hpar) as Hh.
  unfold load_handle. simpl. rewrite Hh. simpl.
  rewrite bool_decide_eq_true_2 by done. simpl. eauto.
Qed.

(** X11: in a reachable world no entry point and no callback of the
    poller runs into a failed [assert] (the two of [uv_fs_poll_stop], the
    one of [timer_cb]) or into a remainder by zero (the [%] of [poll_cb]).
    A step fails only when the loop has nothing of that kind to deliver,
    or when the event names a handle that was not initialised or a
    context that is not allocated.  The calls of [abort()] are behind the
    return codes of the timer and of the stat request, which are taken to
    report success. *)
Theorem no_assertion_fails (w : world) (e : event) (f : fault) :
  reachable w -> step w e = Fault f ->
  f = NotEnabled \/ (f = InvalidPointer /\ names_missing w e).
Proof.
  intros Hr H. apply reachable_inv in Hr. destruct e.
  - unfold step in H.
    destruct (bool_decide (handles w !! h = None)); simpl in H;
      [discriminate | injection H as <-; by left].
  - unfold step in H. destruct (in_uint interval_arg); simpl in H;
      [|injection H as <-; by left].
    unfold uv_fs_poll_start, load_handle in H.
    destruct (handles w !! h) as [hd|] eqn:Hh; simpl in H;
      [|injection H as <-; by right].
    unfold uv__is_active in H. destruct (active hd); simpl in H;
      [discriminate|]. destruct alloc_ok; simpl in H; discriminate.
  - unfold step in H. destruct (handles w !! h) as [hd|] eqn:Hh.
    + destruct (stop_returns w h hd Hr Hh) as [w' Hstop].
      rewrite Hstop in H. discriminate.
    + unfold uv_fs_poll_stop, load_handle in H. rewrite Hh in H.
      simpl in H. injection H as <-. by right.
  - unfold step, uv__fs_poll_close in H.
    destruct (handles w !! h) as [hd|] eqn:Hh.
    + destruct (stop_returns w h hd Hr Hh) as [w' Hstop].
      rewrite Hstop in H. discriminate.
    + unfold uv_fs_poll_stop, load_handle in H. rewrite Hh in H.
      simpl in H. injection H as <-. by right.
  - unfold step in H.
    destruct ((time w <=? now) && (now <? UINT64_MOD)); simpl in H;
      [discriminate | injection H as <-; by left].
  - destruct (heap w !! p) as [c|] eqn:Hc.
    + destruct (timer_active (timer_handle c)
                || timer_cancelled (timer_handle c)) eqn:Hfire.
      * destruct (step_timer_fires w p c Hr Hc Hfire) as [w' Hstep].
        rewrite Hstep in H. discriminate.
      * unfold step, load in H. rewrite Hc in H. simpl in H.
        rewrite Hfire in H. simpl in H. injection H as <-. by left.
    + unfold step, load in H. rewrite Hc in H. simpl in H.
      injection H as <-. by right.
  - destruct (heap w !! p) as [c|] eqn:Hc.
    + destruct (fs_pending (fs_req c)) eqn:Hpend;
        [destruct (stat_result_ok result_arg errorno_arg) eqn:Hres|].
      * destruct (step_stat_enabled w p c result_arg errorno_arg sb Hr Hc
                    Hpend Hres) as [w' Hstep].
        rewrite Hstep in H. discriminate.
      * unfold step, load in H. rewrite Hc in H. simpl in H.
        rewrite Hpend, Hres in H. simpl in H. injection H as <-. by left.
      * unfold step, load in H. rewrite Hc in H. simpl in H.
        rewrite Hpend in H. simpl in H. injection H as <-. by left.
    + unfold step, load in H. rewrite Hc in H. simpl in H.
      injection H as <-. by right.
  - destruct (heap w !! p) as [c|] eqn:Hc.
    + destruct (timer_closing (timer_handle c)) eqn:Hcl.
      * destruct (step_closed_enabled w p c Hc Hcl) as [w' Hstep].
        rewrite Hstep in H. discriminate.
      * unfold step, load in H. rewrite Hc in H. simpl in H.
        rewrite Hcl in H. simpl in H. injection H as <-. by left.
    + unfold step, load in H. rewrite Hc in H. simpl in H.
      injection H as <-. by right.
Qed.

(** ** Stopping while the timer is armed *)

(** A context whose timer was stopped while armed stays as it is until
    the callback of that timer runs. *)
Lemma step_stalled (w w' : world) (ev : event) (q : nat) (d : poll_ctx) :
  inv_loop w -> heap w !! q = Some d ->
  timer_cancelled (timer_handle d) = true ->
  step w ev = Ok w' -> ev <> EvTimer q ->
  exists d', heap w' !! q = Some d'
    /\ timer_cancelled (timer_handle d') = true.
Proof.
  intros [Hinv Hone _] Hd Hcn H Hev.
  destruct (outstanding_one d (Hone q d Hd)) as (_ & _ & _ & Hflags).
  destruct (Hflags Hcn) as (Dpend & Dact & Dcl).
  pose proof (ok_cancelled _ _ (inv_ctx w Hinv q d Hd) Hcn) as Ddet.
  pose proof (inv_addr w Hinv q d Hd) as Dlt.
  step_split H; simpl; eauto.
  - rewrite lookup_insert_ne by lia. eauto.
  - rewrite lookup_insert_ne; [eauto|]. intros ->. congruence.
  - rewrite lookup_insert_ne; [eauto|]. intros ->. congruence.
  - destruct H as (_ & _ & -> & _).
    rewrite lookup_insert_ne; [eauto|]. intros ->. congruence.
  - destruct H as (_ & _ & -> & _).
    rewrite lookup_insert_ne; [eauto|]. intros ->. congruence.
  - destruct H as (_ & _ & -> & _).
    rewrite lookup_insert_ne; [eauto|]. intros ->. congruence.
  - destruct H as (_ & _ & -> & _).
    rewrite lookup_insert_ne; [eauto|]. intros ->. congruence.
  - destruct H as (_ & _ & -> & _).
    rewrite lookup_insert_ne; [eauto|]. intros ->. congruence.
  - rewrite lookup_delete_ne; [eauto|]. intros ->. congruence.
Qed.

Lemma run_stalled (evs : list event) (w w' : world) (q : nat) (d : poll_ctx) :
  inv_loop w -> heap w !! q = Some d ->
  timer_cancelled (timer_handle d) = true ->
  run evs w = Ok w' -> EvTimer q ∉ evs ->
  exists d', heap w' !! q = Some d'
    /\ timer_cancelled (timer_handle d') = true.
Proof.
  revert w d. induction evs as [|e evs IH]; simpl; intros w d Hl Hd Hcn H Hev.
  - injection H as <-. eauto.
  - apply res_bind_Ok in H as (w1 & Hstep & H).
    destruct (step_stalled w w1 e q d Hl Hd Hcn Hstep) as (d1 & Hd1 & Hcn1).
    + intros ->. apply Hev. apply elem_of_cons. by left.
    + eapply (IH w1 d1); eauto using step_inv_loop.
      intros Hin. apply Hev. apply elem_of_cons. by right.
Qed.

(** X12: let the handle be active and the timer of its context be armed.
    Then [uv_fs_poll_stop], and [uv__fs_poll_close] alike, return and free
    nothing, and from there on, whatever the loop does: the context makes
    no callback, and it stays allocated as long as the callback of the
    stopped timer has not run.  If the loop does run that callback, it
    issues no stat request and asks for the timer to be closed, and the
    close callback then frees the context, once. *)
Theorem stop_during_wait_defers_the_free (w : world) (h p : nat)
    (hd : uv_fs_poll_t) (c : poll_ctx) (e : event) :
  reachable w -> handles w !! h = Some hd -> active hd = true ->
  h_poll_ctx hd = Some p -> heap w !! p = Some c ->
  timer_active (timer_handle c) = true ->
  e = EvStop h \/ e = EvClose h ->
  exists w1, step w e = Ok w1
    /\ freed w1 = freed w
    /\ (forall evs w', run evs w1 = Ok w' ->
          calls_of p w' = calls_of p w
          /\ (EvTimer p ∉ evs ->
              is_Some (heap w' !! p) /\ free_count p w' = 0%nat))
    /\ exists w2 c2 w3, step w1 (EvTimer p) = Ok w2
         /\ heap w2 !! p = Some c2
         /\ fs_pending (fs_req c2) = false
         /\ step w2 (EvClosed p) = Ok w3
         /\ free_count p w3 = 1%nat
         /\ heap w3 !! p = None
         /\ calls w3 = calls w.
Proof.
  intros Hr Hh Hact Hp Hc Htm He. apply reachable_inv_loop in Hr as Hl.
  pose proof (loop_inv w Hl) as Hinv.
  destruct (stop_returns w h hd Hinv Hh) as [w1 Hstop].
  assert (Hstep : step w e = Ok w1).
  { destruct He as [-> | ->]; simpl; unfold uv__fs_poll_close;
      by rewrite Hstop. }
  pose proof (step_inv_loop _ _ _ Hl Hstep) as Hl1.
  pose proof (loop_inv w1 Hl1) as Hinv1.
  apply uv_fs_poll_stop_Ok in Hstop
    as (hd0 & Hhd0 & [[Hact0 _]|(q & d & h' & _ & Hq & Hd & Hpar & Hw1)]);
    [congruence|].
  assert (hd0 = hd) as -> by congruence.
  assert (q = p) as -> by congruence.
  assert (d = c) as -> by congruence.
  injection Hw1 as ->.
  set (c1 := set_timer_handle (uv_timer_stop (timer_handle c)).2
               (set_parent_handle None c)) in *.
  set (w1 := store_handle h (mk_handle false None) (store p c1 w)) in *.
  assert (Hc1 : heap w1 !! p = Some c1) by (simpl; by rewrite lookup_insert_eq).
  assert (Hcn1 : timer_cancelled (timer_handle c1) = true).
  { simpl. by rewrite Htm. }
  assert (Hdet1 : detached p w1).
  { split; [simpl; eauto using inv_addr|]. intros c' Hc'.
    assert (c' = c1) as -> by congruence. done. }
  assert (Hnf1 : p ∉ freed w1).
  { intros Hin. destruct (inv_freed w1 Hinv1 p Hin). congruence. }
  exists w1. split; [done|]. split; [done|]. split.
  - intros evs w' Hrun. pose proof (run_inv _ _ _ Hinv1 Hrun) as Hinv'.
    destruct (run_detached evs w1 w' p Hinv1 Hdet1 Hrun) as [_ Hcalls].
    split; [by rewrite Hcalls|]. intros Hev.
    destruct (run_stalled evs w1 w' p c1 Hl1 Hc1 Hcn1 Hrun Hev)
      as (c' & Hc' & _).
    split; [eauto|].
    destruct (free_count_nodup p w' (inv_nodup w' Hinv')) as (_ & _ & Hzero).
    apply Hzero. intros Hin. destruct (inv_freed w' Hinv' p Hin). congruence.
  - destruct (step_timer_fires w1 p c1 Hinv1 Hc1) as [w2 Htimer].
    { by rewrite Hcn1, orb_true_r. }
    pose proof (step_inv _ _ _ Hinv1 Htimer) as Hinv2.
    apply step_timer_Ok in Htimer as Hs. destruct Hs as (c0 & Hc0 & _ & Hs).
    assert (c0 = c1) as -> by congruence. simpl in Hs.
    destruct Hs as (_ & _ & Hheap2 & _ & Hfreed2 & Hcalls2).
    assert (Hpend : fs_pending (fs_req c) = false).
    { destruct (outstanding_one c (loop_one w Hl p c Hc)) as (_ & Ha & _).
      by destruct (Ha Htm). }
    edestruct (step_closed_enabled w2 p) as [w3 Hclosed].
    { rewrite Hheap2. apply lookup_insert_eq. }
    { done. }
    pose proof (step_inv _ _ _ Hinv2 Hclosed) as Hinv3.
    pose proof (step_closed_freed _ _ _ Hclosed) as Hfreed3.
    assert (Hin3 : p ∈ freed w3).
    { rewrite Hfreed3. apply elem_of_app. right. by apply list_elem_of_singleton. }
    eexists w2, _, w3. split; [done|].
    split; [rewrite Hheap2; apply lookup_insert_eq|].
    split; [exact Hpend|]. split; [done|].
    destruct (free_count_nodup p w3 (inv_nodup w3 Hinv3)) as (_ & Ho3 & _).
    split; [by apply Ho3|]. split; [by destruct (inv_freed w3 Hinv3 p Hin3)|].
    unfold step, timer_close_cb in Hclosed. ok_all. subst w3. simpl.
    rewrite Hcalls2. simpl. apply app_nil_r.
Qed.

(** ** Callbacks along the life of a context *)

(** A step leaves the owner of a context as it is, or detaches it. *)
Lemma step_owner (w w' : world) (ev : event) (q : nat) (d d' : poll_ctx) :
  inv w -> step w ev = Ok w' ->
  heap w !! q = Some d -> heap w' !! q = Some d' ->
  parent_handle d' = parent_handle d \/ parent_handle d' = None.
Proof.
  intros Hinv H Hd Hd'. pose proof (inv_addr w Hinv q d Hd) as Dlt.
  assert (Hframe : forall p c', heap w' = <[p := c']> (heap w) ->
            (p = q -> parent_handle c' = parent_handle d
                      \/ parent_handle c' = None) ->
            parent_handle d' = parent_handle d \/ parent_handle d' = None).
  { intros p c' Hheap Hpq. rewrite Hheap in Hd'.
    destruct (decide (q = p)) as [->|Hne].
    - rewrite lookup_insert_eq in Hd'. injection Hd' as <-. by apply Hpq.
    - rewrite lookup_insert_ne in Hd' by done. left. congruence. }
  step_split H; simpl in Hd'; try (left; congruence).
  - eapply Hframe; [reflexivity|]. lia.
  - eapply Hframe; [reflexivity|]. intros _. by right.
  - eapply Hframe; [reflexivity|]. intros _. by right.
  - destruct H as (_ & _ & Hheap & _). eapply Hframe; [exact Hheap|].
    intros ->. left. simpl. congruence.
  - destruct H as (_ & _ & Hheap & _). eapply Hframe; [exact Hheap|].
    intros ->. left. simpl. congruence.
  - destruct H as (_ & _ & Hheap & _). eapply Hframe; [exact Hheap|].
    intros ->. left. simpl. congruence.
  - destruct H as (_ & _ & Hheap & _). eapply Hframe; [exact Hheap|].
    intros ->. left. simpl. congruence.
  - destruct H as (_ & _ & Hheap & _). eapply Hframe; [exact Hheap|].
    intros ->. left. simpl. congruence.
  - apply lookup_delete_Some in Hd' as [_ Hd']. left. congruence.
Qed.

Lemma step_started_with (w w' : world) (ev : event) (cb h q : nat) :
  inv w -> started_with cb h q w -> step w ev = Ok w' ->
  started_with cb h q w'.
Proof.
  intros Hinv (Dlt & Hctx & Hlog) H. split; [|split].
  - pose proof (step_next_ctx _ _ _ H). lia.
  - intros d' Hd'.
    destruct (step_ctx w w' ev q d' Hinv H Hd' Dlt)
      as (d & Hd & _ & _ & Hcb & _).
    destruct (Hctx d Hd) as [Hcbd Hown]. split; [congruence|].
    destruct (step_owner w w' ev q d d' Hinv H Hd Hd') as [Heq|Hnone];
      [rewrite Heq; exact Hown | by right].
  - destruct (step_calls w w' ev H) as (ks & Hks & _ & Hnew).
    intros k. unfold calls_of. rewrite Hks, filter_app, elem_of_app.
    intros [Hin|Hin]; [by apply Hlog|].
    apply list_elem_of_filter in Hin as [Hkq Hin].
    destruct (Hnew k Hin) as (p & r & e0 & sb & c & h0 & _ & Hc & Hpar & Hkp
                              & Hok & _).
    assert (p = q) as -> by congruence.
    destruct (Hctx c Hc) as [Hcbc Hown]. rewrite Hcbc in Hok.
    destruct Hown as [Hown|Hown]; [|congruence].
    assert (h0 = h) as -> by congruence. exact Hok.
Qed.

Lemma run_started_with (evs : list event) (w w' : world) (cb h q : nat) :
  inv w -> started_with cb h q w -> run evs w = Ok w' ->
  started_with cb h q w'.
Proof.
  revert w. induction evs as [|e evs IH]; simpl; intros w Hinv Hs H.
  - by injection H as <-.
  - apply res_bind_Ok in H as (w1 & Hstep & H).
    eauto using step_inv, step_started_with.
Qed.

(** X13: the context that [uv_fs_poll_start] creates invokes, as long as
    it lives and whatever the loop does, only the callback it was started
    with, on the handle it was started on, with status 0, or with status
    -1 and the zeroed sentinel as the current snapshot. *)
Theorem callbacks_use_the_arguments_of_start (w : world) (h cb : nat)
    (hd : uv_fs_poll_t) (pa : string) (iv : Z) :
  reachable w -> handles w !! h = Some hd -> active hd = false ->
  is_uint iv ->
  exists w1, step w (EvStart h cb pa iv true) = Ok w1
    /\ forall evs w', run evs w1 = Ok w' ->
         forall k, k ∈ calls_of (next_ctx w) w' -> call_ok cb h k.
Proof.
  intros Hr Hh Hact Hiv. apply reachable_inv_loop in Hr as [Hinv _ Hcalls].
  apply load_handle_Ok in Hh. apply in_uint_spec in Hiv.
  eexists. split.
  { unfold step. rewrite Hiv. simpl.
    unfold uv_fs_poll_start, uv__is_active. rewrite Hh. simpl. rewrite Hact.
    simpl. reflexivity. }
  match goal with |- forall evs w', run evs ?w0 = _ -> _ => set (w1 := w0) end.
  assert (Hstep : step w (EvStart h cb pa iv true) = Ok w1).
  { unfold step. rewrite Hiv. simpl.
    unfold uv_fs_poll_start, uv__is_active. rewrite Hh. simpl. rewrite Hact.
    simpl. reflexivity. }
  pose proof (step_inv _ _ _ Hinv Hstep) as Hinv1.
  assert (Hs1 : started_with cb h (next_ctx w) w1).
  { split; [simpl; lia|]. split.
    - intros d. simpl. rewrite lookup_insert_eq. intros [= <-]. simpl. auto.
    - intros k Hk. apply list_elem_of_filter in Hk as [Hkq Hk]. simpl in Hk.
      specialize (Hcalls k Hk). lia. }
  intros evs w' Hrun.
  by destruct (run_started_with evs w1 w' cb h (next_ctx w) Hinv1 Hs1 Hrun)
    as (_ & _ & Hlog).
Qed.

(** ** Start, again *)

(** X14: when [calloc] fails, [uv_fs_poll_start] returns -1 with
    [UV_ENOMEM] as the loop's last error and changes nothing else: the
    handle stays inactive, no context is allocated and no address is
    used up, so that a later start creates the context it would have
    created at first. *)
Theorem failed_allocation_changes_nothing (w : world) (h cb : nat)
    (hd : uv_fs_poll_t) (pa : string) (iv : Z) :
  handles w !! h = Some hd -> active hd = false ->
  exists w1, uv_fs_poll_start h cb pa iv true w = Ok (0, w1)
    /\ uv_fs_poll_start h cb pa iv false w = Ok (-1, set_last_err UV_ENOMEM w)
    /\ uv_fs_poll_start h cb pa iv true (set_last_err UV_ENOMEM w)
       = Ok (0, set_last_err UV_ENOMEM w1).
Proof.
  intros Hh Hact. apply load_handle_Ok in Hh.
  unfold uv_fs_poll_start, uv__is_active, load_handle in *. simpl.
  destruct (handles w !! h) as [hd0|]; [|discriminate]. injection Hh as ->.
  simpl. rewrite Hact. simpl. eexists. split; [reflexivity|]. done.
Qed.

(** X15: a handle that is stopped can be started again at once.  The new
    context is another one than the old, it is Unprimed with a zeroed
    snapshot and its stat request in flight, so what the old context had
    observed is not compared against; the old context stays allocated,
    detached, with what it had stored. *)
Theorem restart_polls_from_scratch (w : world) (h p cb : nat)
    (hd : uv_fs_poll_t) (c : poll_ctx) (pa : string) (iv : Z) :
  reachable w -> handles w !! h = Some hd -> active hd = true ->
  h_poll_ctx hd = Some p -> heap w !! p = Some c -> is_uint iv ->
  exists w1 w2 c1 c2,
    step w (EvStop h) = Ok w1
    /\ step w1 (EvStart h cb pa iv true) = Ok w2
    /\ handles w2 !! h = Some (mk_handle true (Some (next_ctx w)))
    /\ next_ctx w <> p
    /\ heap w2 !! next_ctx w = Some c2
    /\ parent_handle c2 = Some h /\ ctx_poll_cb c2 = cb /\ path c2 = pa
    /\ fs_pending (fs_req c2) = true
    /\ status_of c2 = Unprimed /\ statbuf c2 = zero_statbuf
    /\ heap w2 !! p = Some c1
    /\ parent_handle c1 = None
    /\ statbuf c1 = statbuf c /\ busy_polling c1 = busy_polling c.
Proof.
  intros Hr Hh Hact Hp Hc Hiv. apply reachable_inv in Hr as Hinv.
  pose proof (inv_addr w Hinv p c Hc) as Hlt.
  destruct (inv_handle w Hinv h hd Hh Hact) as (p0 & c0 & Hp0 & Hc0 & Hpar).
  assert (p0 = p) as -> by congruence. assert (c0 = c) as -> by congruence.
  apply load_handle_Ok in Hh. apply load_Ok in Hc. apply in_uint_spec in Hiv.
  eexists _, _, _, _. split.
  { unfold step, uv_fs_poll_stop, uv__is_active. rewrite Hh. simpl.
    rewrite Hact. simpl. rewrite Hp, Hc. simpl. rewrite Hpar. reflexivity. }
  split.
  { unfold step. rewrite Hiv. simpl.
    unfold uv_fs_poll_start, uv__is_active, load_handle, store_handle. simpl.
    rewrite lookup_insert_eq. simpl. reflexivity. }
  simpl. rewrite !lookup_insert_eq.
  rewrite lookup_insert_ne by lia. rewrite lookup_insert_eq.
  repeat split; try done. lia.
Qed.

(** ** The loop's last error *)


(** ** Handles and their contexts *)

(** X17: in every reachable world a handle and its context point to each
    other.  The [poll_ctx] field of an active handle is an allocated
    context whose [parent_handle] is that handle; the [parent_handle] of
    a context, when not [NULL], is an active handle whose [poll_ctx] is
    that context; so no two contexts are attached to one handle, and no
    context is attached to an inactive handle.  (What the [poll_ctx] field
    of an inactive handle holds is not said: [uv_fs_poll_init] does not
    write it.) *)
Theorem handle_and_context_point_to_each_other (w : world) (h : nat)
    (hd : uv_fs_poll_t) :
  reachable w -> handles w !! h = Some hd ->
  (active hd = true ->
     exists p c, h_poll_ctx hd = Some p /\ heap w !! p = Some c
                 /\ parent_handle c = Some h)
  /\ (forall p c, heap w !! p = Some c -> parent_handle c = Some h ->
        active hd = true /\ h_poll_ctx hd = Some p)
  /\ (forall p p' c c', heap w !! p = Some c -> heap w !! p' = Some c' ->
        parent_handle c = Some h -> parent_handle c' = Some h -> p = p').
Proof.
  intros Hr Hh. apply reachable_inv in Hr as Hinv. split; [|split].
  - intros Hact. by apply (inv_handle w Hinv h hd).
  - intros p c Hc Hpar. pose proof (inv_parent w Hinv p c h Hc Hpar) as Hh'.
    rewrite Hh in Hh'. by injection Hh' as ->.
  - intros p p' c c' Hc Hc' Hpar Hpar'.
    pose proof (inv_parent w Hinv p c h Hc Hpar) as H1.
    pose proof (inv_parent w Hinv p' c' h Hc' Hpar') as H2. congruence.
Qed.

(** ** The first cycle *)

(** X19: [uv_fs_poll_start] takes the loop time as the start of the first
    cycle and the interval it is given, or 1 for 0.  When the first stat
    request of the new context completes, however it ends, the timer is
    armed with the interval less the time that has passed since the
    start, modulo the interval. *)
Theorem first_cycle_starts_at_start (w : world) (h cb : nat)
    (hd : uv_fs_poll_t) (pa : string) (iv now r e : Z) (sb : uv_statbuf_t) :
  reachable w -> handles w !! h = Some hd -> active hd = false ->
  is_uint iv -> time w <= now < UINT64_MOD -> stat_result_ok r e = true ->
  exists w1 w2 w3 c3,
    step w (EvStart h cb pa iv true) = Ok w1
    /\ step w1 (EvTick now) = Ok w2
    /\ step w2 (EvStat (next_ctx w) r e sb) = Ok w3
    /\ heap w3 !! next_ctx w = Some c3
    /\ timer_active (timer_handle c3) = true
    /\ timer_timeout (timer_handle c3)
       = (if iv =? 0 then 1 else iv)
         - (now - time w) mod (if iv =? 0 then 1 else iv).
Proof.
  intros Hr Hh Hact Hiv Hnow Hres. apply reachable_inv in Hr as Hinv.
  pose proof (inv_time w Hinv) as Htime.
  apply load_handle_Ok in Hh. pose proof Hiv as Hiv'.
  apply in_uint_spec in Hiv.
  set (d := mk_poll_ctx (Some h) 0 (if iv =? 0 then 1 else iv) (time w) cb
              (mk_timer false false 0 false) (mk_fs_req true 0 0 None)
              zero_statbuf pa).
  set (w1 := store_handle h (mk_handle true (Some (next_ctx w)))
               (store (next_ctx w) d (set_next_ctx (S (next_ctx w)) w))).
  assert (Hstep1 : step w (EvStart h cb pa iv true) = Ok w1).
  { unfold step. rewrite Hiv. simpl.
    unfold uv_fs_poll_start, uv__is_active. rewrite Hh. simpl. rewrite Hact.
    simpl. reflexivity. }
  assert (Hstep2 : step w1 (EvTick now) = Ok (set_time now w1)).
  { unfold step. simpl.
    replace ((time w <=? now) && (now <? UINT64_MOD)) with true; [done|].
    symmetry. apply andb_true_iff. split; [apply Z.leb_le | apply Z.ltb_lt]; lia. }
  pose proof (step_inv _ _ _ Hinv Hstep1) as Hinv1.
  pose proof (step_inv _ _ _ Hinv1 Hstep2) as Hinv2.
  assert (Hd : heap (set_time now w1) !! next_ctx w = Some d).
  { simpl. by rewrite lookup_insert_eq. }
  destruct (stat_attached_step (set_time now w1) (next_ctx w) h d r e sb
              Hinv2 Hd eq_refl eq_refl Hres)
    as (w3 & c3 & Hstep3 & Hc3 & Htm & _).
  exists w1, (set_time now w1), w3, c3. repeat (split; [done|]).
  rewrite Htm. simpl. split; [done|].
  assert (Hint : 1 <= interval d <= UINT_MAX).
  { unfold is_uint, UINT_MAX in *. simpl. destruct (Z.eqb_spec iv 0); lia. }
  destruct (next_delay_spec d now Hint) as [Heq _]; simpl; [lia | lia |].
  exact Heq.
Qed.

End FsPoll.

(** * Concrete runs *)

(** The sample worlds are the ones the sample events lead to, on a Linux
    build. *)
Lemma world_idle_reachable :
  reachable linux_build sample_enomem sample_uninit world_idle.
Proof. exists idle_events. vm_compute. reflexivity. Qed.

Lemma world_polling_reachable :
  reachable linux_build sample_enomem sample_uninit world_polling.
Proof. exists polling_events. vm_compute. reflexivity. Qed.

Lemma world_primed_reachable :
  reachable linux_build sample_enomem sample_uninit world_primed.
Proof. exists primed_events. vm_compute. reflexivity. Qed.

Lemma world_failing_run :
  run linux_build sample_enomem sample_uninit
    [EvStat 0%nat (-1) 34 snapshot_root] world_primed
  = Ok world_failing.
Proof. vm_compute. reflexivity. Qed.

(** C1, witness: handle 7 is stopped while its first stat is in flight;
    the stat then fails with error code 34 and the close callback is
    delivered. *)
Lemma stop_during_stat_frees_once_witness :
  exists w1 w2 w3,
    step linux_build sample_enomem sample_uninit world_polling (EvStop 7%nat) = Ok w1
    /\ step linux_build sample_enomem sample_uninit w1
         (EvStat 0%nat (-1) 34 snapshot_root) = Ok w2
    /\ step linux_build sample_enomem sample_uninit w2 (EvClosed 0%nat) = Ok w3
    /\ free_count 0%nat w3 = 1%nat /\ calls w3 = calls world_polling.
Proof.
  destruct (stop_during_stat_frees_once linux_build sample_enomem
              sample_uninit world_polling
              7%nat 0%nat (mk_handle true (Some 0%nat)) ctx_polling)
    as (w1 & Hstop & _ & Hlive);
    [exact world_polling_reachable | reflexivity | reflexivity | reflexivity
     | reflexivity | reflexivity |].
  destruct (Hlive (-1) 34 snapshot_root eq_refl)
    as (w2 & w3 & Hstat & _ & Hclosed & Hcount & _ & Hsame).
  exists w1, w2, w3. repeat split; assumption.
Defined.

(** C2, witness: interval 100, cycle started at 0, stat completed at 30:
    the timer is armed with 70. *)
Lemma timer_delay_is_drift_corrected_witness :
  exists w' c',
    step linux_build sample_enomem sample_uninit world_polling
      (EvStat 0%nat 0 0 snapshot_root) = Ok w'
    /\ heap w' !! 0%nat = Some c'
    /\ timer_active (timer_handle c') = true
    /\ timer_timeout (timer_handle c') = 70.
Proof.
  destruct (timer_delay_is_drift_corrected linux_build sample_enomem sample_uninit
              world_polling 0%nat 7%nat ctx_polling) as [Hstat _];
    [exact world_polling_reachable | reflexivity | reflexivity |].
  destruct (Hstat 0 0 snapshot_root eq_refl eq_refl)
    as (w' & c' & Hstep & Hc' & Hact & _ & _ & H70).
  exists w', c'. repeat split; try assumption.
  apply H70; reflexivity.
Defined.

(** C4, witness: the first stat of handle 7 succeeds. *)
Lemma first_successful_stat_only_primes_witness :
  exists w' c',
    step linux_build sample_enomem sample_uninit world_polling
      (EvStat 0%nat 0 0 snapshot_root) = Ok w'
    /\ calls w' = calls world_polling
    /\ heap w' !! 0%nat = Some c'
    /\ statbuf c' = snapshot_root /\ status_of c' = Primed.
Proof.
  apply (first_successful_stat_only_primes linux_build sample_enomem sample_uninit
           world_polling 0%nat 7%nat ctx_polling 0 snapshot_root);
    [exact world_polling_reachable | reflexivity | reflexivity | reflexivity
     | reflexivity].
Defined.

(** C6, witness: the second stat of handle 7 returns the snapshot that is
    stored. *)
Lemma equal_snapshot_is_not_reported_witness :
  exists w',
    step linux_build sample_enomem sample_uninit world_primed
      (EvStat 0%nat 0 0 snapshot_root) = Ok w'
    /\ calls w' = calls world_primed.
Proof.
  apply (equal_snapshot_is_not_reported linux_build sample_enomem sample_uninit
           world_primed 0%nat 7%nat ctx_primed 0 snapshot_root);
    [exact world_primed_reachable | reflexivity | reflexivity | reflexivity
     | reflexivity | reflexivity].
Defined.

(** C7, witness: handle 7 is started again while it polls, and it is
    stopped before it was ever started. *)
Lemma start_and_stop_are_idempotent_witness :
  uv_fs_poll_start sample_enomem 7%nat 2%nat "g" 5 true world_polling
  = Ok (0, world_polling)
  /\ uv_fs_poll_stop 7%nat world_idle = Ok (0, world_idle).
Proof.
  split.
  - apply (proj1 (start_and_stop_are_idempotent sample_enomem world_polling
                    7%nat (mk_handle true (Some 0%nat)) eq_refl) eq_refl).
  - apply (proj2 (start_and_stop_are_idempotent sample_enomem world_idle
                    7%nat (mk_handle false None) eq_refl) eq_refl).
Defined.

(** C8, witness: the Primed context of handle 7 sees its stat fail with
    error code 34 and is Failing afterwards. *)
Lemma status_never_returns_to_unprimed_witness :
  status_move (status_of ctx_primed) (status_of ctx_failing)
  /\ (status_of ctx_primed <> Unprimed -> status_of ctx_failing <> Unprimed).
Proof.
  apply (status_never_returns_to_unprimed linux_build sample_enomem sample_uninit
           world_primed world_failing [EvStat 0%nat (-1) 34 snapshot_root]
           0%nat ctx_primed ctx_failing);
    [exact world_primed_reachable | exact world_failing_run | reflexivity
     | reflexivity].
Defined.

(** C9, witness: handle 7 is started with interval 0. *)
Lemma interval_is_at_least_one_witness :
  exists w' c,
    uv_fs_poll_start sample_enomem 7%nat 1%nat "f" 0 true world_idle = Ok (0, w')
    /\ heap w' !! next_ctx world_idle = Some c /\ interval c = 1.
Proof.
  destruct (proj1 (interval_is_at_least_one linux_build sample_enomem sample_uninit)
              world_idle 7%nat (mk_handle false None) 1%nat "f" 0
              eq_refl eq_refl)
    as (w' & c & Hstart & _ & Hc & Hzero & _).
  exists w', c. repeat split; try assumption. by apply Hzero.
Defined.

(** C10, witness: the first stat of handle 7 fails with error code 34. *)
Lemma first_stat_failure_reports_zero_snapshots_witness :
  exists w',
    step linux_build sample_enomem sample_uninit world_polling
      (EvStat 0%nat (-1) 34 snapshot_root) = Ok w'
    /\ calls w' = calls world_polling ++
         [mk_cb_call 0%nat 1%nat 7%nat (-1) zero_statbuf zero_statbuf].
Proof.
  destruct (first_stat_failure_reports_zero_snapshots linux_build
              sample_enomem sample_uninit
              world_polling world_polling_reachable) as [_ Hfail].
  destruct (Hfail 0%nat 7%nat ctx_polling (-1) 34 snapshot_root eq_refl eq_refl
              eq_refl eq_refl) as (_ & Hcall);
    [discriminate | by vm_compute | discriminate |].
  exact Hcall.
Defined.

(** C3, witness: a Linux build on two snapshots that differ in their
    owner, and a [_WIN32] build on two that differ in their change time. *)
Lemma statbuf_eq_compares_tracked_fields_witness :
  (statbuf_eq linux_build snapshot_root snapshot_user = true <->
     same_tracked_fields true snapshot_root snapshot_user)
  /\ (statbuf_eq windows_build snapshot_root snapshot_recreated = true <->
      same_win32_fields snapshot_root snapshot_recreated).
Proof.
  split.
  - apply (proj1 (statbuf_eq_compares_tracked_fields linux_build true
                    snapshot_root snapshot_user) eq_refl eq_refl).
  - apply (proj2 (statbuf_eq_compares_tracked_fields windows_build true
                    snapshot_root snapshot_recreated) eq_refl).
Defined.

(** C3, counterexample: compiled with [_WIN32], the comparator reports two
    snapshots equal that differ in their change time, whatever resolution
    the platform is taken to expose. *)
Lemma statbuf_eq_win32_ignores_ctime :
  ~ (statbuf_eq windows_build snapshot_root snapshot_recreated = true <->
     same_tracked_fields false snapshot_root snapshot_recreated)
  /\ ~ (statbuf_eq windows_build snapshot_root snapshot_recreated = true <->
        same_tracked_fields true snapshot_root snapshot_recreated).
Proof.
  split; intros [H _]; specialize (H eq_refl);
    destruct H as (_ & _ & _ & _ & _ & _ & _ & Hctime & _);
    discriminate Hctime.
Qed.

(** The build that the amended C3 leaves out: for a Unix other than Linux
    and OS X the comparator reads whole seconds only (the [TODO] of the
    source says so), also where the platform has the nanosecond parts. *)
Example statbuf_eq_other_unix_reads_whole_seconds :
  statbuf_eq other_unix_build snapshot_root snapshot_rewritten = true
  /\ ~ same_tracked_fields true snapshot_root snapshot_rewritten
  /\ statbuf_eq linux_build snapshot_root snapshot_rewritten = false.
Proof.
  split; [reflexivity|]. split; [|reflexivity].
  intros (_ & _ & _ & _ & _ & _ & _ & _ & Hnsec).
  destruct (Hnsec eq_refl) as [Hm _]. discriminate Hm.
Qed.

(** X1, witness: the second stat of handle 7 fails with error code 34,
    and the callback gets the stored snapshot and the zeroed one. *)
Lemma failed_stat_reports_on_change_witness :
  exists w',
    step linux_build sample_enomem sample_uninit world_primed
      (EvStat 0%nat (-1) 34 snapshot_root) = Ok w'
    /\ calls w' = calls world_primed ++
         [mk_cb_call 0%nat 1%nat 7%nat (-1) snapshot_root zero_statbuf].
Proof.
  destruct (failed_stat_reports_on_change linux_build sample_enomem sample_uninit
              world_primed 0%nat 7%nat ctx_primed (-1) 34 snapshot_root)
    as (w' & c' & Hstep & _ & _ & _ & Hcall & _);
    [exact world_primed_reachable | reflexivity | reflexivity | reflexivity
     | discriminate | reflexivity |].
  exists w'. split; assumption.
Defined.

(** X2, witness: the second stat of handle 7 returns a snapshot with
    another uid. *)
Lemma changed_snapshot_is_reported_witness :
  exists w',
    step linux_build sample_enomem sample_uninit world_primed
      (EvStat 0%nat 0 0 snapshot_user) = Ok w'
    /\ calls w' = calls world_primed ++
         [mk_cb_call 0%nat 1%nat 7%nat 0 snapshot_root snapshot_user].
Proof.
  destruct (changed_snapshot_is_reported linux_build sample_enomem sample_uninit
              world_primed 0%nat 7%nat ctx_primed 0 snapshot_user)
    as (w' & c' & Hstep & Hcall & _);
    [exact world_primed_reachable | reflexivity | reflexivity | reflexivity
     | reflexivity | reflexivity |].
  exists w'. split; assumption.
Defined.

(** The scenario of the specification, on a Linux build: the file has
    size 10 when polling starts with interval 50; it grows to 20; it is
    deleted (error code 34); it comes back with size 5.  The first stat
    makes no callback, and each of the three changes makes one. *)
Example scenario_of_the_specification :
  let s10 := mk_statbuf 1 2 420 1 0 0 0 10 0 100 100 0 0 in
  let s20 := mk_statbuf 1 2 420 1 0 0 0 20 0 160 160 0 0 in
  let s5 := mk_statbuf 1 3 420 1 0 0 0 5 0 260 260 0 0 in
  exists w,
    run linux_build sample_enomem sample_uninit
      [EvInit 7%nat; EvStart 7%nat 1%nat "f" 50 true;
       EvTick 3; EvStat 0%nat 0 0 s10;
       EvTick 50; EvTimer 0%nat; EvTick 52; EvStat 0%nat 0 0 s20;
       EvTick 100; EvTimer 0%nat; EvTick 101; EvStat 0%nat (-1) 34 s20;
       EvTick 150; EvTimer 0%nat; EvTick 151; EvStat 0%nat 0 0 s5] init = Ok w
    /\ calls w =
       [mk_cb_call 0%nat 1%nat 7%nat 0 s10 s20;
        mk_cb_call 0%nat 1%nat 7%nat (-1) s20 zero_statbuf;
        mk_cb_call 0%nat 1%nat 7%nat 0 s20 s5].
Proof.
  intros s10 s20 s5.
  match goal with |- context [run ?c ?e ?u ?l ?i] =>
    set (r := run c e u l i); vm_compute in r end.
  eexists. split; [reflexivity|]. reflexivity.
Qed.


(** * More concrete runs *)

Lemma world_failing_reachable :
  reachable linux_build sample_enomem sample_uninit world_failing.
Proof. exists failing_events. vm_compute. reflexivity. Qed.

Lemma world_retrying_reachable :
  reachable linux_build sample_enomem sample_uninit world_retrying.
Proof. exists retrying_events. vm_compute. reflexivity. Qed.

Lemma world_failing_step :
  step linux_build sample_enomem sample_uninit world_primed
    (EvStat 0%nat (-1) 34 snapshot_root) = Ok world_failing.
Proof. vm_compute. reflexivity. Qed.

Lemma world_primed_unknown_handle :
  step linux_build sample_enomem sample_uninit world_primed (EvStop 9%nat)
  = Fault InvalidPointer.
Proof. vm_compute. reflexivity. Qed.

(** X5, witness: two snapshots that a Linux build finds equal; they differ
    in the link count and the access time. *)
Lemma statbuf_eq_coarsens_witness :
  statbuf_eq other_unix_build snapshot_root
    (with_untracked 2 0 99 snapshot_root) = true
  /\ statbuf_eq windows_build snapshot_root
       (with_untracked 2 0 99 snapshot_root) = true.
Proof.
  apply (statbuf_eq_coarsens linux_build snapshot_root
           (with_untracked 2 0 99 snapshot_root)); reflexivity.
Defined.

(** X6, witness: the context of handle 7 while its timer is armed. *)
Lemma one_operation_is_outstanding_witness :
  outstanding ctx_failing = 1%nat
  /\ fs_pending (fs_req ctx_failing)
     = negb (timer_active (timer_handle ctx_failing)).
Proof.
  destruct (one_operation_is_outstanding linux_build sample_enomem sample_uninit
              world_failing 0%nat ctx_failing)
    as (Hone & Hatt); [exact world_failing_reachable | reflexivity |].
  split; [exact Hone|]. apply (Hatt 7%nat eq_refl).
Defined.

(** X7, witness: interval 100, cycle started at 0, stat completed at 30:
    the timer is armed to fire at 100. *)
Lemma timer_delay_ends_on_the_grid_witness :
  exists w' c',
    step linux_build sample_enomem sample_uninit world_polling
      (EvStat 0%nat 0 0 snapshot_root) = Ok w'
    /\ heap w' !! 0%nat = Some c'
    /\ timer_active (timer_handle c') = true
    /\ 1 <= timer_timeout (timer_handle c') <= interval ctx_polling
    /\ (time world_polling + timer_timeout (timer_handle c')
        - start_time ctx_polling) mod interval ctx_polling = 0.
Proof.
  apply (timer_delay_ends_on_the_grid linux_build sample_enomem sample_uninit
           world_polling 0%nat 7%nat ctx_polling 0 0 snapshot_root);
    [exact world_polling_reachable | reflexivity | reflexivity | reflexivity
     | reflexivity].
Defined.

(** X8, witness: after the failure with error code 34 the third stat of
    handle 7 succeeds, with the snapshot that was stored before. *)
Lemma recovery_is_always_reported_witness :
  exists w' c',
    step linux_build sample_enomem sample_uninit world_retrying
      (EvStat 0%nat 0 0 snapshot_root) = Ok w'
    /\ calls w' = calls world_retrying ++
         [mk_cb_call 0%nat 1%nat 7%nat 0 snapshot_root snapshot_root]
    /\ heap w' !! 0%nat = Some c'
    /\ statbuf c' = snapshot_root /\ status_of c' = Primed.
Proof.
  apply (recovery_is_always_reported linux_build sample_enomem sample_uninit
           world_retrying 0%nat 7%nat ctx_retrying 0 snapshot_root);
    [exact world_retrying_reachable | reflexivity | reflexivity | reflexivity
     | reflexivity].
Defined.

(** X9, witness: the second stat of handle 7 returns the stored snapshot
    with another link count and another access time. *)
Lemma untracked_change_is_not_reported_witness :
  exists w' c',
    step linux_build sample_enomem sample_uninit world_primed
      (EvStat 0%nat 0 0 (with_untracked 2 0 99 (statbuf ctx_primed))) = Ok w'
    /\ calls w' = calls world_primed
    /\ heap w' !! 0%nat = Some c'
    /\ statbuf c' = with_untracked 2 0 99 (statbuf ctx_primed).
Proof.
  apply (untracked_change_is_not_reported linux_build sample_enomem sample_uninit
           world_primed 0%nat 7%nat ctx_primed 0 2 0 99);
    [exact world_primed_reachable | reflexivity | reflexivity | reflexivity
     | reflexivity].
Defined.

(** X10, witness: the step in which the second stat of handle 7 fails. *)
Lemma callbacks_come_from_stat_completions_witness :
  exists ks,
    calls world_failing = calls world_primed ++ ks
    /\ (length ks <= 1)%nat
    /\ forall k, k ∈ ks ->
         exists p r e0 sb c h,
           EvStat 0%nat (-1) 34 snapshot_root = EvStat p r e0 sb
           /\ heap world_primed !! p = Some c
           /\ parent_handle c = Some h
           /\ cb_ctx k = p
           /\ call_ok (ctx_poll_cb c) h k
           /\ cb_prev k = statbuf c.
Proof.
  apply (callbacks_come_from_stat_completions linux_build sample_enomem sample_uninit
           world_primed world_failing (EvStat 0%nat (-1) 34 snapshot_root)
           world_failing_step).
Defined.

(** X11, witness: a handle that was never initialised is stopped. *)
Lemma no_assertion_fails_witness :
  InvalidPointer = NotEnabled
  \/ (InvalidPointer = InvalidPointer
      /\ names_missing world_primed (EvStop 9%nat)).
Proof.
  apply (no_assertion_fails linux_build sample_enomem sample_uninit world_primed
           (EvStop 9%nat) InvalidPointer world_primed_reachable
           world_primed_unknown_handle).
Defined.

(** X12, witness: handle 7 is stopped while its timer is armed; the
    stopped timer's callback and then the close callback are delivered. *)
Lemma stop_during_wait_defers_the_free_witness :
  exists w1 w2 w3,
    step linux_build sample_enomem sample_uninit world_failing (EvStop 7%nat) = Ok w1
    /\ freed w1 = freed world_failing
    /\ step linux_build sample_enomem sample_uninit w1 (EvTimer 0%nat) = Ok w2
    /\ step linux_build sample_enomem sample_uninit w2 (EvClosed 0%nat) = Ok w3
    /\ free_count 0%nat w3 = 1%nat
    /\ calls w3 = calls world_failing.
Proof.
  destruct (stop_during_wait_defers_the_free linux_build sample_enomem sample_uninit
              world_failing 7%nat 0%nat (mk_handle true (Some 0%nat))
              ctx_failing (EvStop 7%nat))
    as (w1 & Hstop & Hfreed & _ & w2 & c2 & w3 & Htimer & _ & _ & Hclosed
        & Hcount & _ & Hcalls);
    [exact world_failing_reachable | reflexivity | reflexivity | reflexivity
     | reflexivity | reflexivity | left; reflexivity |].
  exists w1, w2, w3. repeat split; assumption.
Defined.

(** X13, witness: handle 7 is started with callback 1. *)
Lemma callbacks_use_the_arguments_of_start_witness :
  exists w1,
    step linux_build sample_enomem sample_uninit world_idle
      (EvStart 7%nat 1%nat "f" 100 true) = Ok w1
    /\ forall evs w', run linux_build sample_enomem sample_uninit evs w1 = Ok w' ->
         forall k, k ∈ calls_of (next_ctx world_idle) w' ->
           call_ok 1%nat 7%nat k.
Proof.
  apply (callbacks_use_the_arguments_of_start linux_build sample_enomem sample_uninit
           world_idle 7%nat 1%nat (mk_handle false None) "f" 100);
    [exact world_idle_reachable | reflexivity | reflexivity
     | unfold is_uint, UINT_MAX; lia].
Defined.

(** X14, witness: handle 7 is started when memory is exhausted, and then
    again. *)
Lemma failed_allocation_changes_nothing_witness :
  exists w1,
    uv_fs_poll_start sample_enomem 7%nat 1%nat "f" 100 true world_idle
    = Ok (0, w1)
    /\ uv_fs_poll_start sample_enomem 7%nat 1%nat "f" 100 false world_idle
       = Ok (-1, set_last_err sample_enomem world_idle)
    /\ uv_fs_poll_start sample_enomem 7%nat 1%nat "f" 100 true
         (set_last_err sample_enomem world_idle)
       = Ok (0, set_last_err sample_enomem w1).
Proof.
  apply (failed_allocation_changes_nothing sample_enomem world_idle 7%nat
           1%nat (mk_handle false None) "f" 100); reflexivity.
Defined.

(** X15, witness: handle 7 is stopped during its second stat and started
    again on another path. *)
Lemma restart_polls_from_scratch_witness :
  exists w1 w2 c2,
    step linux_build sample_enomem sample_uninit world_primed (EvStop 7%nat) = Ok w1
    /\ step linux_build sample_enomem sample_uninit w1 (EvStart 7%nat 2%nat "g" 5 true)
       = Ok w2
    /\ heap w2 !! 1%nat = Some c2
    /\ status_of c2 = Unprimed /\ statbuf c2 = zero_statbuf.
Proof.
  destruct (restart_polls_from_scratch linux_build sample_enomem sample_uninit
              world_primed 7%nat 0%nat 2%nat (mk_handle true (Some 0%nat))
              ctx_primed "g" 5)
    as (w1 & w2 & c1 & c2 & Hstop & Hstart & _ & _ & Hc2 & _ & _ & _ & _
        & Hst & Hsb & _);
    [exact world_primed_reachable | reflexivity | reflexivity | reflexivity
     | reflexivity | unfold is_uint, UINT_MAX; lia |].
  exists w1, w2, c2. repeat split; assumption.
Defined.


(** X17, witness: handle 7 while it polls. *)
Lemma handle_and_context_point_to_each_other_witness :
  exists p c,
    h_poll_ctx (mk_handle true (Some 0%nat)) = Some p
    /\ heap world_primed !! p = Some c /\ parent_handle c = Some 7%nat.
Proof.
  apply (proj1 (handle_and_context_point_to_each_other linux_build
                  sample_enomem sample_uninit world_primed 7%nat
                  (mk_handle true (Some 0%nat)) world_primed_reachable
                  eq_refl) eq_refl).
Defined.


(** X19, witness: handle 7 is started at 0 with interval 100 and its
    first stat completes at 30: the timer is armed with 70. *)
Lemma first_cycle_starts_at_start_witness :
  exists w1 w2 w3 c3,
    step linux_build sample_enomem sample_uninit world_idle
      (EvStart 7%nat 1%nat "f" 100 true) = Ok w1
    /\ step linux_build sample_enomem sample_uninit w1 (EvTick 30) = Ok w2
    /\ step linux_build sample_enomem sample_uninit w2
         (EvStat 0%nat 0 0 snapshot_root) = Ok w3
    /\ heap w3 !! 0%nat = Some c3
    /\ timer_timeout (timer_handle c3) = 70.
Proof.
  destruct (first_cycle_starts_at_start linux_build sample_enomem
              sample_uninit world_idle 7%nat 1%nat (mk_handle false None)
              "f" 100 30 0 0 snapshot_root)
    as (w1 & w2 & w3 & c3 & H1 & H2 & H3 & Hc3 & _ & Htm);
    [exact world_idle_reachable | reflexivity | reflexivity
     | unfold is_uint, UINT_MAX; lia | unfold UINT64_MOD; simpl; lia
     | reflexivity |].
  exists w1, w2, w3, c3. repeat split; assumption.
Defined.
